(** * The job orchestrator of [web_app.py]

    A shallow embedding of the job bookkeeping of the llms.txt web
    application: the two module-level dictionaries [ACTIVE_JOBS] and
    [COMPLETED_JOBS], the background task [JobProcessor.process_job], the
    request handlers [generate], [get_status], [download_file] and [health],
    and the periodic [cleanup_old_jobs].

    Modelling decisions.
    - Python values are the inductive [value]; a dictionary with string keys
      is a [gmap string value].
    - Job records are dictionary objects that the program mutates in place
      and copies ([ACTIVE_JOBS[job_id]["progress"] = ...],
      [COMPLETED_JOBS[job_id].copy()]), so they live in a heap of objects
      and the two job dictionaries map identifiers to addresses.  The nested
      dictionaries ([files], the generator's result) are never mutated by
      the program and are kept by value.
    - [process_job] runs in a thread of its own: it is a small-step machine
      with one program counter per statement, named after the source line.
      The request handlers and the sweep are short and are taken as atomic.
    - What the environment decides (the generator's outcome, the directory
      picked by [tempfile.mkdtemp], the identifier drawn by [uuid.uuid4],
      the passing of time) is carried by the action that is executed.
    - [urlparse(url).netloc] is a library function; the development is
      parametric in it.
    - Timestamps ([time.time()]) are exact numbers.
    - The staging area of the file system has two levels: a temporary
      directory holds files by name, and [os.path.join temp_dir name] is
      kept as the pair [VPath temp_dir name].
    - [print], [logger.error] and the HTML page have no effect on the
      state and are left out. *)

From Stdlib Require Import Ascii String.
From stdpp Require Import gmap strings list fin_maps.

Local Open Scope string_scope.
Local Open Scope Z_scope.

(** ** Values *)

#[warnings="-register-all"]
Inductive value : Type :=
| VNone
| VBool (b : bool)
| VNum (n : Z)
| VStr (s : string)
| VPath (dir name : string)
| VDict (d : gmap string value).

Abbreviation dict := (gmap string value).

(** Python's truth value of an object, as used by [if x:] and [not x]. *)
Definition truthy (v : value) : bool :=
  match v with
  | VNone => false
  | VBool b => b
  | VNum n => negb (n =? 0)
  | VStr s => negb (String.eqb s "")
  | VPath _ _ => true
  | VDict d => negb (Nat.eqb (size d) 0)
  end.

(** [v == s] for a string literal [s]. *)
Definition is_str (v : value) (s : string) : bool :=
  match v with
  | VStr s' => String.eqb s' s
  | _ => false
  end.

Definition type_name (v : value) : string :=
  match v with
  | VNone => "NoneType"
  | VBool _ => "bool"
  | VNum _ => "int"
  | VStr _ | VPath _ _ => "str"
  | VDict _ => "dict"
  end.

(** The outcome of an operation that may raise: its value, or the
    stringified exception [str(e)]. *)
Inductive outcome (A : Type) : Type :=
| Return (a : A)
| Raise (msg : string).
Arguments Return {A} a.
Arguments Raise {A} msg.

(** [str(KeyError(k))] is [repr(k)]; exact for keys without quotes,
    backslashes and unprintable characters. *)
Definition str_KeyError (k : string) : string := "'" +:+ k +:+ "'".

(** [v[k]] for a string literal [k]. *)
Definition subscript (v : value) (k : string) : outcome value :=
  match v with
  | VDict d =>
      match d !! k with
      | Some x => Return x
      | None => Raise (str_KeyError k)
      end
  | VStr _ | VPath _ _ => Raise "string indices must be integers, not 'str'"
  | _ => Raise ("'" +:+ type_name v +:+ "' object is not subscriptable")
  end.

(** ** Strings *)

(** [s.replace(old, new)]: the occurrences of [old] are found from left to
    right and do not overlap.  [skip] counts the characters of an occurrence
    that are still to be dropped. *)
Fixpoint replace_from (old new : string) (skip : nat) (s : string) : string :=
  match s with
  | EmptyString =>
      match old with EmptyString => new | _ => EmptyString end
  | String c rest =>
      match skip with
      | S k => replace_from old new k rest
      | O =>
          match old with
          | EmptyString => new +:+ String c (replace_from old new O rest)
          | String _ old' =>
              if String.prefix old s
              then new +:+ replace_from old new (String.length old') rest
              else String c (replace_from old new O rest)
          end
      end
  end.

Definition str_replace (s old new : string) : string := replace_from old new O s.

(** [sub in s]. *)
Definition contains (s sub : string) : Prop :=
  ∃ before after, s = before +:+ sub +:+ after.

(** ** Program state *)

Definition addr := nat.

(** The statements of [process_job] at which the task can be observed.  A
    counter carries the local variables that are live at that point. *)
Inductive pc : Type :=
| L73                                                 (* ACTIVE_JOBS[job_id] = {...} *)
| L80                                                 (* if not self.generator: raise *)
| L84                                                 (* ACTIVE_JOBS[job_id]["progress"] = ... *)
| L86                                                 (* result = self.generator.generate_llmstxt(...) *)
| L89 (result : value)                                (* temp_dir = tempfile.mkdtemp() *)
| L91 (result : value) (temp_dir : string)            (* domain = urlparse(url).netloc.replace(...) *)
| L97 (result : value) (temp_dir domain : string)     (* with open(llmstxt_path, "w") ... *)
| L100 (result : value) (temp_dir domain : string)    (* if include_full_text: with open(...) ... *)
| L105 (result : value) (temp_dir domain : string)    (* COMPLETED_JOBS[job_id] = {... "completed" ...} *)
| L117                                                (* if job_id in ACTIVE_JOBS: del ... *)
| L123 (error_msg : string)                           (* except: COMPLETED_JOBS[job_id] = {... "failed" ...} *)
| L133                                                (* if job_id in ACTIVE_JOBS: del ... *)
| Done.

(** A thread started by [generate]: the arguments of [process_job] other
    than [job_id], and where it stands. *)
Record task := Task {
  url : value;
  max_urls : value;
  include_full_text : value;
  at_pc : pc;
}.

Definition goto (p : pc) (t : task) : task :=
  Task (url t) (max_urls t) (include_full_text t) p.

Record state := State {
  generator : bool;                        (* job_processor.generator is not None *)
  heap : gmap addr dict;                   (* the job record objects *)
  ACTIVE_JOBS : gmap string addr;
  COMPLETED_JOBS : gmap string addr;
  fs : gmap string (gmap string string);   (* temporary directory -> file name -> content *)
  clock : Z;                               (* time.time() *)
  threads : gmap string task;              (* the process_job threads, by job_id *)
  timers : list Z;                         (* due times of the armed cleanup timers *)
  calls : list (value * value * value);    (* generate_llmstxt calls, latest first *)
}.

Definition set_heap (h : gmap addr dict) (s : state) : state :=
  State (generator s) h (ACTIVE_JOBS s) (COMPLETED_JOBS s) (fs s) (clock s)
        (threads s) (timers s) (calls s).
Definition set_ACTIVE_JOBS (m : gmap string addr) (s : state) : state :=
  State (generator s) (heap s) m (COMPLETED_JOBS s) (fs s) (clock s)
        (threads s) (timers s) (calls s).
Definition set_COMPLETED_JOBS (m : gmap string addr) (s : state) : state :=
  State (generator s) (heap s) (ACTIVE_JOBS s) m (fs s) (clock s)
        (threads s) (timers s) (calls s).
Definition set_fs (f : gmap string (gmap string string)) (s : state) : state :=
  State (generator s) (heap s) (ACTIVE_JOBS s) (COMPLETED_JOBS s) f (clock s)
        (threads s) (timers s) (calls s).
Definition set_clock (c : Z) (s : state) : state :=
  State (generator s) (heap s) (ACTIVE_JOBS s) (COMPLETED_JOBS s) (fs s) c
        (threads s) (timers s) (calls s).
Definition set_threads (th : gmap string task) (s : state) : state :=
  State (generator s) (heap s) (ACTIVE_JOBS s) (COMPLETED_JOBS s) (fs s) (clock s)
        th (timers s) (calls s).
Definition set_timers (ts : list Z) (s : state) : state :=
  State (generator s) (heap s) (ACTIVE_JOBS s) (COMPLETED_JOBS s) (fs s) (clock s)
        (threads s) ts (calls s).
Definition set_calls (cs : list (value * value * value)) (s : state) : state :=
  State (generator s) (heap s) (ACTIVE_JOBS s) (COMPLETED_JOBS s) (fs s) (clock s)
        (threads s) (timers s) cs.

(** The object at an address. *)
Definition deref (h : gmap addr dict) (a : addr) : dict := default ∅ (h !! a).

(** Allocation of a new dictionary object. *)
Definition alloc (r : dict) (s : state) : addr * state :=
  let a := fresh (dom (heap s)) in (a, set_heap (<[a := r]> (heap s)) s).

(** ** The file system *)

Definition path_str (dir name : string) : string := dir +:+ "/" +:+ name.

(** [with open(path, "w") as f: f.write(content)], where evaluating
    [content] may raise.  [open] creates or truncates the file before the
    content is evaluated, and needs the directory to exist. *)
Definition open_write (dir name : string) (content : outcome value)
    (f : gmap string (gmap string string))
  : gmap string (gmap string string) * outcome unit :=
  match f !! dir with
  | None =>
      (f, Raise ("[Errno 2] No such file or directory: '" +:+ path_str dir name +:+ "'"))
  | Some files =>
      match content with
      | Raise msg => (<[dir := <[name := ""]> files]> f, Raise msg)
      | Return (VStr text) => (<[dir := <[name := text]> files]> f, Return tt)
      | Return v =>
          (<[dir := <[name := ""]> files]> f,
           Raise ("write() argument must be str, not " +:+ type_name v))
      end
  end.

(** [send_file(path, as_attachment=True)]. *)
Inductive response : Type :=
| Json (code : Z) (body : value)        (* return jsonify(body), code *)
| Attachment (content : string)         (* the bytes of the file, code 200 *)
| Unhandled (msg : string).             (* an exception escapes the handler *)

Definition send_file (f : gmap string (gmap string string)) (p : value) : response :=
  match p with
  | VPath dir name =>
      match f !! dir ≫= (λ files, files !! name) with
      | Some content => Attachment content
      | None => Unhandled ("[Errno 2] No such file or directory: '" +:+ path_str dir name +:+ "'")
      end
  | _ => Unhandled "send_file: not a staged path"
  end.

(** [shutil.rmtree(v)] inside [try: ... except: pass]. *)
Definition rmtree (f : gmap string (gmap string string)) (v : value)
  : gmap string (gmap string string) :=
  match v with
  | VStr dir => delete dir f
  | _ => f
  end.

(** ** The program *)

(** What the environment contributes to one statement of a task: the
    outcome of the generator call and the directory made by [mkdtemp]. *)
Record oracle := Oracle {
  generate_llmstxt : outcome value;
  mkdtemp : string;
}.

Definition set_task (job_id : string) (t : task) (s : state) : state :=
  set_threads (<[job_id := t]> (threads s)) s.

Definition llmstxt_name (domain : string) : string := domain +:+ "-llms.txt".
Definition llms_fulltxt_name (domain : string) : string := domain +:+ "-llms-full.txt".

Definition active_record (t : task) (now : Z) : dict :=
  {[ "url" := url t; "status" := VStr "processing";
     "progress" := VStr "Initializing..."; "start_time" := VNum now ]}.

Definition files_record (t : task) (temp_dir domain : string) : dict :=
  {[ "llmstxt" := VPath temp_dir (llmstxt_name domain);
     "llms_fulltxt" := if truthy (include_full_text t)
                       then VPath temp_dir (llms_fulltxt_name domain)
                       else VNone ]}.

Definition completed_record (t : task) (result : value) (temp_dir domain : string)
    (now : Z) : dict :=
  {[ "url" := url t; "status" := VStr "completed"; "result" := result;
     "files" := VDict (files_record t temp_dir domain);
     "completion_time" := VNum now; "temp_dir" := VStr temp_dir ]}.

Definition failed_record (t : task) (error_msg : string) (now : Z) : dict :=
  {[ "url" := url t; "status" := VStr "failed"; "error" := VStr error_msg;
     "completion_time" := VNum now ]}.

Section orchestrator.

(** [urlparse(url).netloc], or the exception it raises. *)
Variable urlparse_netloc : value → outcome string.

(** One statement of [process_job].  An exception raised by a statement of
    the [try] block transfers control to the handler at line 123. *)
Definition process_job_step (job_id : string) (t : task) (o : oracle) (s : state)
  : option state :=
  let next p s' := Some (set_task job_id (goto p t) s') in
  match at_pc t with
  | L73 =>
      let '(a, s1) := alloc (active_record t (clock s)) s in
      next L80 (set_ACTIVE_JOBS (<[job_id := a]> (ACTIVE_JOBS s1)) s1)
  | L80 =>
      if generator s then next L84 s
      else next (L123 "Generator not initialized - check API keys") s
  | L84 =>
      match ACTIVE_JOBS s !! job_id with
      | Some a =>
          next L86 (set_heap (alter (insert "progress" (VStr "Mapping website...")) a (heap s)) s)
      | None => next (L123 (str_KeyError job_id)) s
      end
  | L86 =>
      let s1 := set_calls ((url t, max_urls t, include_full_text t) :: calls s) s in
      match generate_llmstxt o with
      | Return result => next (L89 result) s1
      | Raise msg => next (L123 msg) s1
      end
  | L89 result =>
      let temp_dir := mkdtemp o in
      match fs s !! temp_dir with
      | Some _ => None
      | None => next (L91 result temp_dir) (set_fs (<[temp_dir := ∅]> (fs s)) s)
      end
  | L91 result temp_dir =>
      match urlparse_netloc (url t) with
      | Return netloc => next (L97 result temp_dir (str_replace netloc "www." "")) s
      | Raise msg => next (L123 msg) s
      end
  | L97 result temp_dir domain =>
      let '(f, r) := open_write temp_dir (llmstxt_name domain)
                                (subscript result "llmstxt") (fs s) in
      match r with
      | Return _ => next (L100 result temp_dir domain) (set_fs f s)
      | Raise msg => next (L123 msg) (set_fs f s)
      end
  | L100 result temp_dir domain =>
      if truthy (include_full_text t) then
        let '(f, r) := open_write temp_dir (llms_fulltxt_name domain)
                                  (subscript result "llms_fulltxt") (fs s) in
        match r with
        | Return _ => next (L105 result temp_dir domain) (set_fs f s)
        | Raise msg => next (L123 msg) (set_fs f s)
        end
      else next (L105 result temp_dir domain) s
  | L105 result temp_dir domain =>
      let '(a, s1) := alloc (completed_record t result temp_dir domain (clock s)) s in
      next L117 (set_COMPLETED_JOBS (<[job_id := a]> (COMPLETED_JOBS s1)) s1)
  | L117 =>
      next Done (set_ACTIVE_JOBS (delete job_id (ACTIVE_JOBS s)) s)
  | L123 error_msg =>
      let '(a, s1) := alloc (failed_record t error_msg (clock s)) s in
      next L133 (set_COMPLETED_JOBS (<[job_id := a]> (COMPLETED_JOBS s1)) s1)
  | L133 =>
      next Done (set_ACTIVE_JOBS (delete job_id (ACTIVE_JOBS s)) s)
  | Done => None
  end.

(** The thread [job_id] executes its next statement. *)
Definition run (job_id : string) (o : oracle) (s : state) : option state :=
  t ← threads s !! job_id; process_job_step job_id t o s.

(** The thread [job_id] runs without interruption until it returns. *)
Fixpoint run_to_end (fuel : nat) (job_id : string) (o : oracle) (s : state)
  : option state :=
  match fuel with
  | O => None
  | S n =>
      match threads s !! job_id with
      | None => None
      | Some t =>
          match at_pc t with
          | Done => Some s
          | _ => process_job_step job_id t o s ≫= run_to_end n job_id o
          end
      end
  end.

(** [process_job(job_id, url, max_urls, include_full_text)] as one call. *)
Definition process_job (job_id : string) (u m i : value) (o : oracle) (s : state)
  : option state :=
  run_to_end 11 job_id o (set_task job_id (Task u m i L73) s).

(** [POST /api/generate].  [data] is [request.get_json()]: [None] or a JSON
    object; [uuid] is the string drawn by [uuid.uuid4()]. *)
Definition generate (data : option dict) (uuid : string) (s : state)
  : state * response :=
  let bad_request :=
    (s, Json 500 (VDict {[ "error" := VStr "400 Bad Request: URL is required" ]})) in
  match data with
  | None => bad_request
  | Some d =>
      if negb (truthy (VDict d)) then bad_request else
      match d !! "url" with
      | None => bad_request
      | Some u =>
          let m := default (VNum 20) (d !! "max_urls") in
          let i := default (VBool true) (d !! "include_full_text") in
          let job_id := uuid in
          (set_task job_id (Task u m i L73) s,
           Json 200 (VDict {[ "job_id" := VStr job_id; "status" := VStr "started";
                              "message" := VStr "Job started successfully" ]}))
      end
  end.

(** [del job[k]] guarded by [if k in job]. *)
Definition del_if_in (k : string) (a : addr) (h : gmap addr dict) : gmap addr dict :=
  match deref h a !! k with
  | Some _ => alter (delete k) a h
  | None => h
  end.

(** [GET /api/status/<job_id>]. *)
Definition get_status (job_id : string) (s : state) : state * response :=
  match ACTIVE_JOBS s !! job_id with
  | Some a => (s, Json 200 (VDict (deref (heap s) a)))
  | None =>
      match COMPLETED_JOBS s !! job_id with
      | Some a =>
          let '(job, s1) := alloc (deref (heap s) a) s in
          let s2 := set_heap (del_if_in "files" job (heap s1)) s1 in
          let s3 := set_heap (del_if_in "temp_dir" job (heap s2)) s2 in
          (s3, Json 200 (VDict (deref (heap s3) job)))
      | None => (s, Json 404 (VDict {[ "error" := VStr "Job not found" ]}))
      end
  end.

(** [files.get(k)] is [None] when the key is absent. *)
Definition get_or_None (d : dict) (k : string) : value := default VNone (d !! k).

(** [GET /api/download/<job_id>/<file_type>]. *)
Definition download_file (job_id file_type : string) (s : state) : response :=
  match COMPLETED_JOBS s !! job_id with
  | None => Json 404 (VDict {[ "error" := VStr "Job not found" ]})
  | Some a =>
      let job := deref (heap s) a in
      match subscript (VDict job) "status" with
      | Raise msg => Unhandled msg
      | Return status =>
          if negb (is_str status "completed")
          then Json 400 (VDict {[ "error" := VStr "Job not completed" ]})
          else
            match default (VDict ∅) (job !! "files") with
            | VDict files =>
                if String.eqb file_type "llmstxt" && truthy (get_or_None files "llmstxt")
                then send_file (fs s) (get_or_None files "llmstxt")
                else if String.eqb file_type "llms_fulltxt"
                        && truthy (get_or_None files "llms_fulltxt")
                then send_file (fs s) (get_or_None files "llms_fulltxt")
                else Json 404 (VDict {[ "error" := VStr "File not found" ]})
            | v => Unhandled ("'" +:+ type_name v +:+ "' object has no attribute 'get'")
            end
      end
  end.

(** [GET /health]. *)
Definition health (s : state) : response :=
  Json 200 (VDict {[ "status" := VStr "healthy";
                     "generator_ready" := VBool (generator s);
                     "active_jobs" := VNum (Z.of_nat (size (ACTIVE_JOBS s)));
                     "completed_jobs" := VNum (Z.of_nat (size (COMPLETED_JOBS s))) ]}).

(** [v < cutoff_time]; comparing a number with anything but a number
    raises [TypeError], here [None]. *)
Definition lt_cutoff (v : value) (cutoff_time : Z) : option bool :=
  match v with
  | VNum t => Some (t <? cutoff_time)
  | VBool b => Some ((if b then 1 else 0) <? cutoff_time)
  | _ => None
  end.

(** The body of the first loop of [cleanup_old_jobs] for one item. *)
Definition sweep_item (h : gmap addr dict) (cutoff_time : Z)
    (acc : gmap string (gmap string string) * list string) (item : string * addr)
  : option (gmap string (gmap string string) * list string) :=
  let job := deref h item.2 in
  old ← lt_cutoff (default (VNum 0) (job !! "completion_time")) cutoff_time;
  if old : bool then
    Some (match job !! "temp_dir" with
          | Some v => rmtree acc.1 v
          | None => acc.1
          end, (acc.2 ++ [item.1])%list)
  else Some acc.

Fixpoint sweep_items (h : gmap addr dict) (cutoff_time : Z)
    (acc : gmap string (gmap string string) * list string)
    (items : list (string * addr))
  : option (gmap string (gmap string string) * list string) :=
  match items with
  | [] => Some acc
  | item :: rest => sweep_item h cutoff_time acc item ≫= λ acc', sweep_items h cutoff_time acc' rest
  end.

(** [cleanup_old_jobs()]: [None] when an exception escapes it, in which
    case the next run is not scheduled. *)
Definition cleanup_old_jobs (s : state) : option state :=
  let cutoff_time := clock s - 3600 in
  '(f, jobs_to_remove) ← sweep_items (heap s) cutoff_time (fs s, [])
                            (map_to_list (COMPLETED_JOBS s));
  Some (set_timers (timers s ++ [clock s + 1800])%list
          (set_COMPLETED_JOBS (foldl (λ m job_id, delete job_id m)
                                     (COMPLETED_JOBS s) jobs_to_remove)
             (set_fs f s))).

(** ** The system *)

Inductive action : Type :=
| Generate (data : option dict) (uuid : string)
| Run (job_id : string) (o : oracle)
| GetStatus (job_id : string)
| DownloadFile (job_id file_type : string)
| Health
| Fire
| Tick (dt : Z).

(** One transition.  [None]: the action cannot happen in this state
    ([uuid4] repeats itself, [mkdtemp] returns an existing directory, the
    thread has returned, no timer is due, time runs backwards). *)
Definition step (s : state) (a : action) : option state :=
  match a with
  | Generate data uuid =>
      match threads s !! uuid with
      | Some _ => None
      | None => Some (generate data uuid s).1
      end
  | Run job_id o => run job_id o s
  | GetStatus job_id => Some (get_status job_id s).1
  | DownloadFile _ _ => Some s
  | Health => Some s
  | Fire =>
      match timers s with
      | due :: rest =>
          if due <=? clock s then cleanup_old_jobs (set_timers rest s) else None
      | [] => None
      end
  | Tick dt => if 0 <=? dt then Some (set_clock (clock s + dt) s) else None
  end.

Fixpoint steps (s : state) (l : list action) : option state :=
  match l with
  | [] => Some s
  | a :: l' => step s a ≫= λ s', steps s' l'
  end.

(** The state in which the module is loaded, before line 430. *)
Definition boot (gen : bool) (now : Z) (f : gmap string (gmap string string)) : state :=
  State gen ∅ ∅ ∅ f now ∅ [] [].

Inductive reachable : state → Prop :=
| reachable_init gen now f s :
    cleanup_old_jobs (boot gen now f) = Some s → reachable s
| reachable_step s a s' :
    reachable s → step s a = Some s' → reachable s'.

End orchestrator.

(** ** A model of [urlparse(url).netloc]

    For a string without white space, control characters and brackets,
    [urlsplit] removes a leading scheme (letters, digits, [+], [-], [.]
    after a first letter, up to the first colon) and, when what follows
    starts with two slashes, takes as [netloc] what lies between them and
    the next [/], [?] or [#].  Used to run the program on concrete URLs. *)

Definition is_alpha (c : ascii) : bool :=
  let n := nat_of_ascii c in
  ((65 <=? n) && (n <=? 90) || (97 <=? n) && (n <=? 122))%nat.

Definition is_scheme_char (c : ascii) : bool :=
  let n := nat_of_ascii c in
  (is_alpha c || (48 <=? n) && (n <=? 57) || (n =? 43) || (n =? 45) || (n =? 46))%nat.

(** What follows the first colon, when only scheme characters precede it. *)
Fixpoint after_scheme (s : string) : option string :=
  match s with
  | EmptyString => None
  | String c rest =>
      if Ascii.eqb c ":" then Some rest
      else if is_scheme_char c then after_scheme rest
      else None
  end.

Definition strip_scheme (s : string) : string :=
  match s with
  | String c rest =>
      if is_alpha c then default s (after_scheme rest) else s
  | EmptyString => s
  end.

Fixpoint until_delim (s : string) : string :=
  match s with
  | EmptyString => EmptyString
  | String c rest =>
      if Ascii.eqb c "/" || Ascii.eqb c "?" || Ascii.eqb c "#" then EmptyString
      else String c (until_delim rest)
  end.

Definition netloc_of (s : string) : string :=
  match strip_scheme s with
  | String "/" (String "/" rest) => until_delim rest
  | _ => EmptyString
  end.

Definition netloc_model (v : value) : outcome string :=
  match v with
  | VStr s => Return (netloc_of s)
  | VPath dir name => Return (netloc_of (path_str dir name))
  | _ => Raise ("'" +:+ type_name v +:+ "' object has no attribute 'decode'")
  end.

(** ** Where a task stands with respect to the two job dictionaries *)

Inductive phase : Type := NotStarted | Processing | Moving | Finished.

Definition phase_of (p : pc) : phase :=
  match p with
  | L73 => NotStarted
  | L117 | L133 => Moving
  | Done => Finished
  | _ => Processing
  end.

(** What the position of the thread of [job_id] says about the presence of
    [job_id] in the two dictionaries. *)
Definition thread_ok (s : state) (job_id : string) (t : task) : Prop :=
  match phase_of (at_pc t) with
  | NotStarted => ACTIVE_JOBS s !! job_id = None ∧ COMPLETED_JOBS s !! job_id = None
  | Processing => is_Some (ACTIVE_JOBS s !! job_id) ∧ COMPLETED_JOBS s !! job_id = None
  | Moving => is_Some (ACTIVE_JOBS s !! job_id)
  | Finished => ACTIVE_JOBS s !! job_id = None
  end.

Record jobs_inv (s : state) : Prop := JobsInv {
  jobs_threads : ∀ job_id t, threads s !! job_id = Some t → thread_ok s job_id t;
  jobs_active : ∀ job_id, is_Some (ACTIVE_JOBS s !! job_id) → is_Some (threads s !! job_id);
  jobs_completed : ∀ job_id, is_Some (COMPLETED_JOBS s !! job_id) → is_Some (threads s !! job_id);
}.

(** ** Invariants of the reachable states *)

Definition active_shape (r : dict) : Prop :=
  ∃ u p n, r = {[ "url" := u; "status" := VStr "processing";
                  "progress" := VStr p; "start_time" := VNum n ]}.

Record heap_inv (s : state) : Prop := HeapInv {
  heap_active : ∀ job_id a, ACTIVE_JOBS s !! job_id = Some a →
    ∃ r, heap s !! a = Some r ∧ active_shape r;
  heap_completed : ∀ job_id a, COMPLETED_JOBS s !! job_id = Some a →
    is_Some (heap s !! a);
  heap_disjoint : ∀ i j a, ACTIVE_JOBS s !! i = Some a →
    COMPLETED_JOBS s !! j = Some a → False;
}.

(** The file [name] of directory [dir] holds the text [result[key]]. *)
Definition written (f : gmap string (gmap string string)) (dir name : string)
    (result : value) (key : string) : Prop :=
  ∃ files text, f !! dir = Some files ∧ files !! name = Some text
                ∧ subscript result key = Return (VStr text).

Definition staged (f : gmap string (gmap string string)) (t : task)
    (result : value) (temp_dir domain : string) : Prop :=
  written f temp_dir (llmstxt_name domain) result "llmstxt"
  ∧ (truthy (include_full_text t) = true →
     written f temp_dir (llms_fulltxt_name domain) result "llms_fulltxt").

(** The two forms of a record of [COMPLETED_JOBS]. *)
Definition completed_shape (f : gmap string (gmap string string)) (r : dict) : Prop :=
  (∃ t e n, r = failed_record t e n)
  ∨ (∃ t result temp_dir domain n,
       r = completed_record t result temp_dir domain n
       ∧ staged f t result temp_dir domain).

(** The temporary directory held in the local variables of a task. *)
Definition pc_temp_dir (p : pc) : option string :=
  match p with
  | L91 _ d | L97 _ d _ | L100 _ d _ | L105 _ d _ => Some d
  | _ => None
  end.

(** What a task has written so far. *)
Definition pc_files (f : gmap string (gmap string string)) (t : task) : Prop :=
  match at_pc t with
  | L100 result d domain => written f d (llmstxt_name domain) result "llmstxt"
  | L105 result d domain => staged f t result d domain
  | _ => True
  end.

(** The job [job_id] is the one that uses the directory [d]: its record
    names it, or its task holds it. *)
Definition owns (s : state) (job_id d : string) : Prop :=
  (∃ a, COMPLETED_JOBS s !! job_id = Some a
        ∧ deref (heap s) a !! "temp_dir" = Some (VStr d))
  ∨ (∃ t, threads s !! job_id = Some t ∧ pc_temp_dir (at_pc t) = Some d).

Record fs_inv (s : state) : Prop := FsInv {
  fs_owned : ∀ job_id d, owns s job_id d → is_Some (fs s !! d);
  fs_owner : ∀ i j d, owns s i d → owns s j d → i = j;
  fs_thread : ∀ job_id t, threads s !! job_id = Some t → pc_files (fs s) t;
  fs_completed : ∀ job_id a, COMPLETED_JOBS s !! job_id = Some a →
    ∃ r, heap s !! a = Some r ∧ completed_shape (fs s) r;
}.

Record inv (s : state) : Prop := Inv {
  inv_jobs : jobs_inv s;
  inv_heap : heap_inv s;
  inv_fs : fs_inv s;
  inv_timers : length (timers s) = 1%nat;
}.

(** The test of the first loop of [cleanup_old_jobs] on the record at [a]. *)
Definition old_job (s : state) (a : addr) : option bool :=
  lt_cutoff (default (VNum 0) (deref (heap s) a !! "completion_time")) (clock s - 3600).

(** ** The course of one task *)

(** A bound on the number of statements that a task has left. *)
Definition remaining (p : pc) : nat :=
  match p with
  | L73 => 10 | L80 => 9 | L84 => 8 | L86 => 7 | L89 _ => 6 | L91 _ _ => 5
  | L97 _ _ _ => 4 | L100 _ _ _ => 3 | L105 _ _ _ => 2 | L117 => 1
  | L123 _ => 2 | L133 => 1 | Done => 0
  end%nat.

(** The task has not called [mkdtemp] yet. *)
Definition before_mkdtemp (p : pc) : bool :=
  match p with
  | L73 | L80 | L84 | L86 | L89 _ => true
  | _ => false
  end.

(** The directory that [mkdtemp] is about to return does not exist. *)
Definition mkdtemp_fresh (o : oracle) (s : state) (t : task) : Prop :=
  before_mkdtemp (at_pc t) = true → fs s !! mkdtemp o = None.

Definition terminal_status (r : dict) : Prop :=
  r !! "status" = Some (VStr "completed") ∨ r !! "status" = Some (VStr "failed").

(** The job is over: its record is in [COMPLETED_JOBS] with a terminal
    status and its identifier is not in [ACTIVE_JOBS]. *)
Definition terminated (s : state) (job_id : string) : Prop :=
  ACTIVE_JOBS s !! job_id = None
  ∧ ∃ a r, COMPLETED_JOBS s !! job_id = Some a ∧ heap s !! a = Some r
           ∧ terminal_status r.

(** The task of [job_id] has made its record, or has returned. *)
Definition late (s : state) (job_id : string) : Prop :=
  ∃ t, threads s !! job_id = Some t
       ∧ (phase_of (at_pc t) = Moving ∨ phase_of (at_pc t) = Finished).

Definition finished (s : state) (job_id : string) : Prop :=
  ∃ t, threads s !! job_id = Some t ∧ at_pc t = Done.

Definition has_record (s : state) (job_id : string) : Prop :=
  ∃ a r, COMPLETED_JOBS s !! job_id = Some a ∧ heap s !! a = Some r
         ∧ terminal_status r.

Definition early (t : task) : Prop :=
  phase_of (at_pc t) = NotStarted ∨ phase_of (at_pc t) = Processing.

(** A series of status queries. *)
Definition status_queries (ids : list string) (s : state) : state :=
  foldl (λ s' job_id, (get_status job_id s').1) s ids.

Definition not_found (msg : string) : response :=
  Json 404 (VDict {[ "error" := VStr msg ]}).

(** ** The claims of the specification that the program does not meet, in
    the words of the specification *)

(** "Jobs exist in exactly one of two collections at a time." *)
Definition in_exactly_one (s : state) (job_id : string) : Prop :=
  (is_Some (ACTIVE_JOBS s !! job_id) ∧ COMPLETED_JOBS s !! job_id = None)
  ∨ (ACTIVE_JOBS s !! job_id = None ∧ is_Some (COMPLETED_JOBS s !! job_id)).

(** "A filesystem-safe base name from the URL's host (stripping a leading
    [www.])." *)
Definition spec_base_name (host : string) : string :=
  if String.prefix "www." host
  then String.substring 4 (String.length host - 4) host
  else host.

(** ** Scenarios *)

(** The server has just been loaded, at time 1000, with both API keys. *)
Definition demo_init : state := State true ∅ ∅ ∅ ∅ 1000 ∅ [2800] [].

(** The same without the API keys. *)
Definition demo_no_keys : state := State false ∅ ∅ ∅ ∅ 1000 ∅ [2800] [].

Definition demo_result : value :=
  VDict {[ "llmstxt" := VStr "# example.com llms.txt";
           "llms_fulltxt" := VStr "# example.com llms-full.txt";
           "num_urls_processed" := VNum 1 ]}.

Definition demo_oracle : oracle := Oracle (Return demo_result) "/tmp/tmpa".

(** A generator whose result has no full text. *)
Definition demo_index_only : oracle :=
  Oracle (Return (VDict {[ "llmstxt" := VStr "# example.com llms.txt" ]})) "/tmp/tmpa".

(** A generator that raises. *)
Definition demo_raising : oracle := Oracle (Raise "No URLs found for the website") "/tmp/tmpa".

(** The request of the concrete scenario of the specification. *)
Definition demo_body : dict :=
  {[ "url" := VStr "https://example.com"; "max_urls" := VNum 10;
     "include_full_text" := VBool false ]}.

Definition demo_task : task :=
  Task (VStr "https://example.com") (VNum 10) (VBool false) L73.

(** The job is submitted and its task executes [n] statements. *)
Definition demo_trace (n : nat) : list action :=
  Generate (Some demo_body) "job-1" :: replicate n (Run "job-1" demo_oracle).

Definition demo_state (n : nat) : state :=
  default demo_init (steps netloc_model demo_init (demo_trace n)).

(** The job is submitted, its task has not started. *)
Definition demo_submitted : state := demo_state 0.
(** The task is about to call the generator, at line 86. *)
Definition demo_pending : state := demo_state 3.
(** The task has made the record and is at line 117. *)
Definition demo_moving : state := demo_state 9.
(** The task has returned. *)
Definition demo_done : state := demo_state 10.

(** More than an hour later. *)
Definition demo_late_trace : list action := (demo_trace 10 ++ [Tick 3700])%list.
Definition demo_late : state :=
  default demo_init (steps netloc_model demo_init demo_late_trace).
Definition demo_swept : state :=
  default demo_init (steps netloc_model demo_init (demo_late_trace ++ [Fire])%list).

(** A URL whose host has ["www."] in the middle. *)
Definition demo_subdomain_url : string := "https://docs.www.example.com/start".

(** The outcome of the call of [process_job] whose generator returns no
    full text although it is requested. *)
Definition demo_failed : state :=
  default demo_init
    (process_job netloc_model "job-1" (VStr "https://example.com") (VNum 20)
       (VBool true) demo_index_only demo_init).

(** The outcome of the call of [process_job] for [demo_subdomain_url]. *)
Definition demo_subdomain : state :=
  default demo_init
    (process_job netloc_model "job-1" (VStr demo_subdomain_url) (VNum 20)
       (VBool false) demo_oracle demo_init).

(** The outcome of the call of [process_job] of the concrete scenario. *)
Definition demo_completed : state :=
  default demo_init
    (process_job netloc_model "job-1" (VStr "https://example.com") (VNum 10)
       (VBool false) demo_oracle demo_init).

(** * Properties *)

(** ** Tactics *)

Ltac split_match H :=
  repeat (match type of H with
          | context [if ?b then _ else _] => destruct b eqn:?
          | context [match ?x with _ => _ end] => destruct x eqn:?
          end; simpl in H); try discriminate.

(** Case analysis on the statement executed by [run]. *)
Ltac run_cases H t Ht Hpc :=
  unfold run in H;
  match type of H with
  | context [threads ?s !! ?id] =>
      destruct (threads s !! id) as [t|] eqn:Ht; simpl in H; [|discriminate]
  end;
  unfold process_job_step in H;
  destruct (at_pc t) eqn:Hpc; simpl in H;
  split_match H; inversion H; subst; clear H.

(** ** Strings and dictionaries *)

Lemma foldl_delete_lookup {A} (l : list string) (m : gmap string A) k :
  foldl (λ m job_id, delete job_id m) m l !! k
  = if decide (k ∈ l) then None else m !! k.
Proof.
  revert m. induction l as [|x l IH]; intros m; [done|].
  simpl. rewrite IH. repeat case_decide; try done.
  - exfalso. set_solver.
  - destruct (decide (k = x)) as [->|Hne]; [apply lookup_delete_eq|]. set_solver.
  - rewrite lookup_delete_ne; [done|]. set_solver.
Qed.

Lemma append_inv_head (p s1 s2 : string) : p +:+ s1 = p +:+ s2 → s1 = s2.
Proof. induction p as [|c p IH]; simpl; [done|]. intros [= H]. auto. Qed.

Lemma llmstxt_name_ne domain : llmstxt_name domain ≠ llms_fulltxt_name domain.
Proof. unfold llmstxt_name, llms_fulltxt_name. by intros ?%append_inv_head. Qed.

Lemma active_record_shape t n : active_shape (active_record t n).
Proof. by exists (url t), "Initializing...", n. Qed.

Lemma active_shape_progress r p :
  active_shape r → active_shape (<["progress" := VStr p]> r).
Proof.
  intros (u & p0 & n & ->). exists u, p, n.
  apply map_eq. intros k.
  destruct (decide (k = "progress")) as [->|?]; [by rewrite lookup_insert_eq|].
  rewrite lookup_insert_ne by done.
  destruct (decide (k = "url")) as [->|?]; [done|].
  destruct (decide (k = "status")) as [->|?]; [done|].
  by rewrite !(lookup_insert_ne _ _ k) by done.
Qed.

Lemma active_shape_lookup r :
  active_shape r →
  r !! "status" = Some (VStr "processing") ∧ is_Some (r !! "progress")
  ∧ is_Some (r !! "url") ∧ is_Some (r !! "start_time")
  ∧ r !! "files" = None ∧ r !! "temp_dir" = None.
Proof. intros (u & p & n & ->). repeat split; by eauto. Qed.

Lemma failed_record_lookup t e n :
  failed_record t e n !! "status" = Some (VStr "failed")
  ∧ failed_record t e n !! "error" = Some (VStr e)
  ∧ failed_record t e n !! "url" = Some (url t)
  ∧ failed_record t e n !! "completion_time" = Some (VNum n)
  ∧ failed_record t e n !! "files" = None
  ∧ failed_record t e n !! "temp_dir" = None.
Proof. done. Qed.

Lemma completed_record_lookup t res d domain n :
  completed_record t res d domain n !! "status" = Some (VStr "completed")
  ∧ completed_record t res d domain n !! "result" = Some res
  ∧ completed_record t res d domain n !! "url" = Some (url t)
  ∧ completed_record t res d domain n !! "files" = Some (VDict (files_record t d domain))
  ∧ completed_record t res d domain n !! "completion_time" = Some (VNum n)
  ∧ completed_record t res d domain n !! "temp_dir" = Some (VStr d).
Proof. done. Qed.

Lemma files_record_lookup t d domain :
  files_record t d domain !! "llmstxt" = Some (VPath d (llmstxt_name domain))
  ∧ files_record t d domain !! "llms_fulltxt"
    = Some (if truthy (include_full_text t)
            then VPath d (llms_fulltxt_name domain) else VNone).
Proof. done. Qed.

Lemma completed_shape_lookup f r :
  completed_shape f r →
  (∃ n, r !! "completion_time" = Some (VNum n))
  ∧ (r !! "temp_dir" = None ∨ ∃ d, r !! "temp_dir" = Some (VStr d))
  ∧ (r !! "status" = Some (VStr "completed") ∨ r !! "status" = Some (VStr "failed")).
Proof.
  intros [(t & e & n & ->)|(t & res & d & domain & n & -> & _)].
  - split; [by exists n|]. split; by left + right.
  - split; [by exists n|]. split; [right; by exists d|by left].
Qed.

(** ** The sweep *)

Section sweep.

Lemma sweep_item_spec (s : state) f rm id a acc :
  sweep_item (heap s) (clock s - 3600) (f, rm) (id, a) = Some acc →
  (old_job s a = Some false ∧ acc = (f, rm))
  ∨ (old_job s a = Some true
     ∧ acc = (match deref (heap s) a !! "temp_dir" with
              | Some v => rmtree f v
              | None => f
              end, (rm ++ [id])%list)).
Proof.
  unfold sweep_item, old_job. simpl.
  destruct (lt_cutoff _ _) as [[]|]; simpl; [| |done].
  - intros [= <-]. by right.
  - intros [= <-]. by left.
Qed.

Lemma rmtree_lookup_None f v d : f !! d = None → rmtree f v !! d = None.
Proof.
  intros H. destruct v; simpl; try done.
  destruct (decide (s = d)) as [->|?];
    [apply lookup_delete_eq|by rewrite lookup_delete_ne].
Qed.

Lemma rmtree_lookup f v d :
  rmtree f v !! d = f !! d ∨ v = VStr d.
Proof.
  destruct v; simpl; auto.
  destruct (decide (s = d)) as [->|?]; [by right|left; by rewrite lookup_delete_ne].
Qed.

Lemma sweep_items_spec (s : state) items :
  ∀ f0 rm0 f rm,
    sweep_items (heap s) (clock s - 3600) (f0, rm0) items = Some (f, rm) →
    (∀ id a, (id, a) ∈ items → is_Some (old_job s a))
    ∧ (∀ id, id ∈ rm ↔ id ∈ rm0 ∨ ∃ a, (id, a) ∈ items ∧ old_job s a = Some true)
    ∧ (∀ d, f0 !! d = None → f !! d = None)
    ∧ (∀ d id a, (id, a) ∈ items → old_job s a = Some true →
                 deref (heap s) a !! "temp_dir" = Some (VStr d) → f !! d = None)
    ∧ (∀ d, f !! d = f0 !! d
            ∨ ∃ id a, (id, a) ∈ items ∧ old_job s a = Some true
                      ∧ deref (heap s) a !! "temp_dir" = Some (VStr d)).
Proof.
  induction items as [|[id a] items IH]; intros f0 rm0 f rm; simpl.
  - intros [= <- <-]. repeat split; try set_solver.
  - destruct (sweep_item _ _ _ _) as [[f1 rm1]|] eqn:Hitem; simpl; [|done].
    intros Hrest. apply IH in Hrest as (Hsome & Hrm & Hnone & Hgone & Hkept).
    apply sweep_item_spec in Hitem as [[Hold [= -> ->]]|[Hold [= -> ->]]].
    + repeat split.
      * intros id' a' [[= -> ->]|?]%elem_of_cons; eauto.
      * intros [?|(a' & ? & ?)]%Hrm; [by left|right; exists a'; set_solver].
      * intros [?|(a' & [[= -> ->]|?]%elem_of_cons & ?)]; apply Hrm;
          [by left|congruence|right; eauto].
      * done.
      * intros d id' a' [[= -> ->]|?]%elem_of_cons ? ?; [congruence|eauto].
      * intros d. destruct (Hkept d) as [?|(id' & a' & ? & ? & ?)]; [by left|].
        right. exists id', a'. set_solver.
    + repeat split.
      * intros id' a' [[= -> ->]|?]%elem_of_cons; eauto.
      * intros [Hin|(a' & ? & ?)]%Hrm; [|right; exists a'; set_solver].
        destruct (decide (id0 = id)) as [->|?]; [right; exists a; set_solver|].
        left. set_solver.
      * intros [?|(a' & [[= -> ->]|?]%elem_of_cons & ?)]; apply Hrm.
        -- left. set_solver.
        -- left. set_solver.
        -- right; eauto.
      * intros d Hd. apply Hnone.
        destruct (deref (heap s) a !! "temp_dir"); [by apply rmtree_lookup_None|done].
      * intros d id' a' [[= -> ->]|?]%elem_of_cons Ho Hd; [|eauto].
        apply Hnone. rewrite Hd. simpl. apply lookup_delete_eq.
      * intros d. destruct (Hkept d) as [Heq|(id' & a' & ? & ? & ?)].
        -- rewrite Heq. destruct (deref (heap s) a !! "temp_dir") as [v|] eqn:Hv;
             [|by left].
           destruct (rmtree_lookup f0 v d) as [?| ->]; [by left|].
           right. exists id, a. set_solver.
        -- right. exists id', a'. set_solver.
Qed.

(** What one run of [cleanup_old_jobs] does to each component of the state. *)
Lemma cleanup_old_jobs_spec s s' :
  cleanup_old_jobs s = Some s' →
  generator s' = generator s ∧ heap s' = heap s
  ∧ ACTIVE_JOBS s' = ACTIVE_JOBS s ∧ clock s' = clock s
  ∧ threads s' = threads s ∧ calls s' = calls s
  ∧ timers s' = (timers s ++ [clock s + 1800])%list
  ∧ (∀ id a, COMPLETED_JOBS s !! id = Some a → is_Some (old_job s a))
  ∧ (∀ id a, COMPLETED_JOBS s' !! id = Some a
             ↔ COMPLETED_JOBS s !! id = Some a ∧ old_job s a = Some false)
  ∧ (∀ d, fs s !! d = None → fs s' !! d = None)
  ∧ (∀ d id a, COMPLETED_JOBS s !! id = Some a → old_job s a = Some true →
               deref (heap s) a !! "temp_dir" = Some (VStr d) → fs s' !! d = None)
  ∧ (∀ d, fs s' !! d = fs s !! d
          ∨ ∃ id a, COMPLETED_JOBS s !! id = Some a ∧ old_job s a = Some true
                    ∧ deref (heap s) a !! "temp_dir" = Some (VStr d)).
Proof.
  unfold cleanup_old_jobs.
  destruct (sweep_items _ _ _ _) as [[f rm]|] eqn:Hsweep; simpl; [|done].
  intros [= <-]. simpl.
  apply sweep_items_spec in Hsweep as (Hsome & Hrm & Hnone & Hgone & Hkept).
  repeat split; try done.
  - intros id a ?%elem_of_map_to_list. eauto.
  - revert H. rewrite foldl_delete_lookup. by case_decide.
  - revert H. rewrite foldl_delete_lookup. case_decide as Hin; [done|]. intros Ha.
    destruct (Hsome id a) as [[] Hold]; [by apply elem_of_map_to_list| |done].
    destruct Hin. apply Hrm. right. exists a. by rewrite elem_of_map_to_list.
  - intros [Ha Hold]. rewrite foldl_delete_lookup. case_decide as Hin; [|done].
    apply Hrm in Hin as [?%elem_of_nil|(a' & Ha'%elem_of_map_to_list & ?)]; [done|].
    congruence.
  - intros d id a ?%elem_of_map_to_list. eauto.
  - intros d. destruct (Hkept d) as [?|(id & a & ?%elem_of_map_to_list & ?)];
      [by left|right; eauto].
Qed.

End sweep.

(** ** Preservation of the invariants *)

Section invariants.

Variable urlparse_netloc : value → outcome string.

Lemma fresh_heap_None (h : gmap addr dict) : h !! fresh (dom h) = None.
Proof. apply not_elem_of_dom, is_fresh. Qed.

Lemma fresh_heap_ne (h : gmap addr dict) a : is_Some (h !! a) → fresh (dom h) ≠ a.
Proof. intros [r Hr] <-. by rewrite fresh_heap_None in Hr. Qed.

Lemma generate_state data uuid s :
  (generate data uuid s).1 = s
  ∨ ∃ u m i, (generate data uuid s).1 = set_task uuid (Task u m i L73) s.
Proof.
  unfold generate. destruct data as [d|]; [|by left].
  destruct (negb _); [by left|]. destruct (d !! "url") as [u|]; [|by left].
  right. by eexists _, _, _.
Qed.

Lemma del_if_in_lookup_ne k a h b : a ≠ b → del_if_in k a h !! b = h !! b.
Proof.
  intros Hne. unfold del_if_in. destruct (deref h a !! k); [|done].
  by rewrite lookup_alter_ne.
Qed.

(** A status query only adds an object to the heap. *)
Lemma get_status_state job_id s :
  let s' := (get_status job_id s).1 in
  generator s' = generator s ∧ ACTIVE_JOBS s' = ACTIVE_JOBS s
  ∧ COMPLETED_JOBS s' = COMPLETED_JOBS s ∧ fs s' = fs s ∧ clock s' = clock s
  ∧ threads s' = threads s ∧ timers s' = timers s ∧ calls s' = calls s
  ∧ ∀ a, is_Some (heap s !! a) → heap s' !! a = heap s !! a.
Proof.
  unfold get_status. destruct (ACTIVE_JOBS s !! job_id); [done|].
  destruct (COMPLETED_JOBS s !! job_id); [|done]. simpl.
  repeat split; try done. intros b Hb.
  rewrite !del_if_in_lookup_ne by by apply fresh_heap_ne.
  rewrite lookup_insert_ne by by apply fresh_heap_ne. done.
Qed.

(** *** Tasks and the two dictionaries *)

Lemma jobs_inv_run s s' job_id t p :
  jobs_inv s →
  threads s !! job_id = Some t →
  threads s' = <[job_id := goto p t]> (threads s) →
  (∀ j, j ≠ job_id → ACTIVE_JOBS s' !! j = ACTIVE_JOBS s !! j) →
  (∀ j, j ≠ job_id → COMPLETED_JOBS s' !! j = COMPLETED_JOBS s !! j) →
  thread_ok s' job_id (goto p t) →
  jobs_inv s'.
Proof.
  intros [Hth Hact Hcom] Ht Hth' Ha Hc Hok. split.
  - intros j t'. rewrite Hth'. destruct (decide (j = job_id)) as [->|Hne].
    + rewrite lookup_insert_eq. by intros [= <-].
    + rewrite lookup_insert_ne by done. intros Hj. specialize (Hth _ _ Hj).
      unfold thread_ok in *. by rewrite (Ha _ Hne), (Hc _ Hne).
  - intros j. rewrite Hth'. destruct (decide (j = job_id)) as [->|Hne].
    + by rewrite lookup_insert_eq.
    + rewrite lookup_insert_ne, (Ha _ Hne) by done. apply Hact.
  - intros j. rewrite Hth'. destruct (decide (j = job_id)) as [->|Hne].
    + by rewrite lookup_insert_eq.
    + rewrite lookup_insert_ne, (Hc _ Hne) by done. apply Hcom.
Qed.

Lemma jobs_inv_run_step s job_id o s' :
  jobs_inv s → run urlparse_netloc job_id o s = Some s' → jobs_inv s'.
Proof.
  intros Hinv H. run_cases H t Ht Hpc.
  all: pose proof (jobs_threads _ Hinv _ _ Ht) as Hok.
  all: unfold thread_ok in Hok; rewrite Hpc in Hok; simpl in Hok.
  all: eapply jobs_inv_run; [done|done|reflexivity|..]; simpl.
  all: try (intros j Hj; by rewrite ?lookup_insert_ne, ?lookup_delete_ne by done).
  all: unfold thread_ok; simpl; rewrite ?lookup_insert_eq, ?lookup_delete_eq; try done.
  all: naive_solver.
Qed.

(** The invariant only reads the dictionaries and the threads. *)
Lemma jobs_inv_frame s s' :
  ACTIVE_JOBS s' = ACTIVE_JOBS s → threads s' = threads s →
  (∀ id a, COMPLETED_JOBS s' !! id = Some a → COMPLETED_JOBS s !! id = Some a) →
  jobs_inv s → jobs_inv s'.
Proof.
  intros Ha Ht Hc [Hth Hact Hcom]. split.
  - intros j t. rewrite Ht. intros Hj. specialize (Hth _ _ Hj).
    assert (COMPLETED_JOBS s !! j = None → COMPLETED_JOBS s' !! j = None) as Hnone.
    { intros Hn. destruct (COMPLETED_JOBS s' !! j) eqn:E; [|done].
      apply Hc in E. congruence. }
    unfold thread_ok in *. rewrite Ha. destruct (phase_of (at_pc t)); naive_solver.
  - intros j. rewrite Ha, Ht. apply Hact.
  - intros j [a Hj]. rewrite Ht. apply Hcom. exists a. by apply Hc.
Qed.

Lemma jobs_inv_step s a s' :
  jobs_inv s → step urlparse_netloc s a = Some s' → jobs_inv s'.
Proof.
  intros Hinv. destruct a as [data uuid|job_id o|job_id|job_id ft| | |dt]; simpl.
  - destruct (threads s !! uuid) eqn:Hu; [done|]. intros [= <-].
    destruct (generate_state data uuid s) as [->|(u & m & i & ->)]; [done|].
    destruct Hinv as [Hth Hact Hcom]. split; simpl.
    + intros j t. destruct (decide (j = uuid)) as [->|Hne].
      * rewrite lookup_insert_eq. intros [= <-]. unfold thread_ok. simpl.
        split.
        -- destruct (ACTIVE_JOBS s !! uuid) eqn:E; [|done].
           destruct (Hact uuid) as [? ?]; [by eauto|congruence].
        -- destruct (COMPLETED_JOBS s !! uuid) eqn:E; [|done].
           destruct (Hcom uuid) as [? ?]; [by eauto|congruence].
      * rewrite lookup_insert_ne by done. apply Hth.
    + intros j Hj. destruct (decide (j = uuid)) as [->|Hne];
        [by rewrite lookup_insert_eq|rewrite lookup_insert_ne by done; auto].
    + intros j Hj. destruct (decide (j = uuid)) as [->|Hne];
        [by rewrite lookup_insert_eq|rewrite lookup_insert_ne by done; auto].
  - by apply jobs_inv_run_step.
  - intros [= <-]. destruct (get_status_state job_id s) as (_ & Ha & Hc & _ & _ & Ht & _).
    eapply jobs_inv_frame; [done|done| |done]. by rewrite Hc.
  - by intros [= <-].
  - by intros [= <-].
  - destruct (timers s) as [|due rest]; [done|]. destruct (due <=? clock s); [|done].
    intros (_ & _ & Ha & _ & Ht & _ & _ & _ & Hc & _)%cleanup_old_jobs_spec.
    simpl in *. eapply jobs_inv_frame; [exact Ha|exact Ht| |done]. intros id a.
    rewrite Hc. tauto.
  - destruct (0 <=? dt); [|done]. intros [= <-].
    eapply jobs_inv_frame; [..|exact Hinv]; simpl; auto.
Qed.

(** *** The heap *)

Lemma heap_inv_frame s s' :
  (∀ id a, ACTIVE_JOBS s' !! id = Some a → ACTIVE_JOBS s !! id = Some a) →
  (∀ id a, COMPLETED_JOBS s' !! id = Some a → COMPLETED_JOBS s !! id = Some a) →
  (∀ a, is_Some (heap s !! a) → heap s' !! a = heap s !! a) →
  heap_inv s → heap_inv s'.
Proof.
  intros Ha Hc Hh [Hact Hcom Hdis]. split.
  - intros j a Hj%Ha. destruct (Hact _ _ Hj) as (r & Hr & Hs).
    exists r. by rewrite Hh.
  - intros j a Hj%Hc. rewrite Hh; eauto.
  - intros i j a Hi%Ha Hj%Hc. eauto.
Qed.

Lemma heap_inv_run_step s job_id o s' :
  heap_inv s → run urlparse_netloc job_id o s = Some s' → heap_inv s'.
Proof.
  intros Hinv H. run_cases H t Ht Hpc.
  all: try (eapply heap_inv_frame; [..|exact Hinv]; simpl;
            intros *; rewrite ?lookup_delete_Some; by intuition).
  all: destruct Hinv as [Hact Hcom Hdis]; split; simpl.
  all: intros *; rewrite ?lookup_insert_Some.
  - intros [[-> <-]|[? Ha]].
    + rewrite lookup_insert_eq. eauto using active_record_shape.
    + destruct (Hact _ _ Ha) as (r & Hr & ?).
      rewrite lookup_insert_ne by (apply fresh_heap_ne; eauto). eauto.
  - intros Ha%Hcom. rewrite lookup_insert_ne by by apply fresh_heap_ne. done.
  - intros [[-> <-]|[? Ha]] Hc; [|by eauto].
    apply Hcom in Hc. by eapply fresh_heap_ne.
  - intros Ha. destruct (Hact _ _ Ha) as (r & Hr & ?).
    rewrite lookup_alter. case_decide as Heq; [subst|by eauto].
    rewrite Hr. simpl. eauto using active_shape_progress.
  - intros Ha%Hcom. rewrite lookup_alter. case_decide; [subst|done].
    by apply fmap_is_Some.
  - eauto.
  - intros Ha. destruct (Hact _ _ Ha) as (r & Hr & ?).
    rewrite lookup_insert_ne by (apply fresh_heap_ne; eauto). eauto.
  - intros [[-> <-]|[? Ha%Hcom]].
    + by rewrite lookup_insert_eq.
    + rewrite lookup_insert_ne by by apply fresh_heap_ne. done.
  - intros Ha [[-> <-]|[? Hc]]; [|by eauto].
    destruct (Hact _ _ Ha) as (r & Hr & ?). eapply fresh_heap_ne; eauto.
  - intros Ha. destruct (Hact _ _ Ha) as (r & Hr & ?).
    rewrite lookup_insert_ne by (apply fresh_heap_ne; eauto). eauto.
  - intros [[-> <-]|[? Ha%Hcom]].
    + by rewrite lookup_insert_eq.
    + rewrite lookup_insert_ne by by apply fresh_heap_ne. done.
  - intros Ha [[-> <-]|[? Hc]]; [|by eauto].
    destruct (Hact _ _ Ha) as (r & Hr & ?). eapply fresh_heap_ne; eauto.
Qed.

Lemma heap_inv_step s a s' :
  heap_inv s → step urlparse_netloc s a = Some s' → heap_inv s'.
Proof.
  intros Hinv. destruct a as [data uuid|job_id o|job_id|job_id ft| | |dt]; simpl.
  - destruct (threads s !! uuid) eqn:Hu; [done|]. intros [= <-].
    destruct (generate_state data uuid s) as [->|(u & m & i & ->)]; [done|].
    eapply heap_inv_frame; [..|exact Hinv]; simpl; auto.
  - by apply heap_inv_run_step.
  - intros [= <-].
    destruct (get_status_state job_id s) as (_ & Ha & Hc & _ & _ & _ & _ & _ & Hh).
    eapply heap_inv_frame; [..|exact Hinv]; [by rewrite Ha|by rewrite Hc|done].
  - by intros [= <-].
  - by intros [= <-].
  - destruct (timers s) as [|due rest]; [done|]. destruct (due <=? clock s); [|done].
    intros (_ & Hh & Ha & _ & _ & _ & _ & _ & Hc & _)%cleanup_old_jobs_spec.
    simpl in *. eapply heap_inv_frame; [..|exact Hinv].
    + by rewrite Ha.
    + intros id a. rewrite Hc. tauto.
    + by rewrite Hh.
  - destruct (0 <=? dt); [|done]. intros [= <-].
    eapply heap_inv_frame; [..|exact Hinv]; simpl; auto.
Qed.

End invariants.

(** *** The staging area *)

Section staging.

Variable urlparse_netloc : value → outcome string.

Lemma written_ext f f' d name result key :
  f' !! d = f !! d → written f d name result key → written f' d name result key.
Proof. intros Heq (files & text & ? & ? & ?). exists files, text. by rewrite Heq. Qed.

Lemma staged_ext f f' t result d domain :
  f' !! d = f !! d → staged f t result d domain → staged f' t result d domain.
Proof. intros Heq [H1 H2]. split; eauto using written_ext. Qed.

Lemma pc_files_ext f f' t :
  (∀ d, pc_temp_dir (at_pc t) = Some d → f' !! d = f !! d) →
  pc_files f t → pc_files f' t.
Proof.
  unfold pc_files. destruct (at_pc t); simpl; try done.
  - intros Hd. apply written_ext. by apply Hd.
  - intros Hd. apply staged_ext. by apply Hd.
Qed.

Lemma completed_shape_ext f f' r :
  (∀ d, r !! "temp_dir" = Some (VStr d) → f' !! d = f !! d) →
  completed_shape f r → completed_shape f' r.
Proof.
  intros Hd [?|(t & res & d & domain & n & -> & Hst)]; [by left|].
  right. exists t, res, d, domain, n. split; [done|].
  eapply staged_ext; [|done]. by apply Hd.
Qed.

(** The general argument: every directory in use is still there, it is
    either used by the same job as before or new, and what was staged for
    the other jobs is untouched. *)
Lemma fs_inv_update s s' :
  fs_inv s →
  (∀ id d, owns s' id d →
     is_Some (fs s' !! d)
     ∧ (owns s id d ∨ (fs s !! d = None ∧ ∀ j, owns s' j d → j = id))) →
  (∀ id t, threads s' !! id = Some t →
     (threads s !! id = Some t
      ∧ ∀ d, pc_temp_dir (at_pc t) = Some d → fs s' !! d = fs s !! d)
     ∨ pc_files (fs s') t) →
  (∀ id a, COMPLETED_JOBS s' !! id = Some a →
     (∃ r, COMPLETED_JOBS s !! id = Some a ∧ heap s !! a = Some r
           ∧ heap s' !! a = Some r
           ∧ ∀ d, r !! "temp_dir" = Some (VStr d) → fs s' !! d = fs s !! d)
     ∨ (∃ r, heap s' !! a = Some r ∧ completed_shape (fs s') r)) →
  fs_inv s'.
Proof.
  intros [Howned Howner Hthread Hcompleted] HO HT HC. split.
  - intros id d Hown. by apply HO in Hown as [? _].
  - intros i j d Hi Hj.
    destruct (HO _ _ Hi) as [_ [Hi'|[Hnone Huniq]]]; [|symmetry; by apply Huniq].
    destruct (HO _ _ Hj) as [_ [Hj'|[Hnone Huniq]]]; [by eapply Howner|].
    by apply Huniq.
  - intros id t Ht. destruct (HT _ _ Ht) as [[Ht' Hd]|?]; [|done].
    eapply pc_files_ext; [exact Hd|]. by eapply Hthread.
  - intros id a Ha. destruct (HC _ _ Ha) as [(r & Ha' & Hr & Hr' & Hd)|?]; [|done].
    exists r. split; [done|]. eapply completed_shape_ext; [exact Hd|].
    destruct (Hcompleted _ _ Ha') as (r' & Hr'' & ?). congruence.
Qed.

(** Ownership only reads the completed records and the threads. *)
Lemma owns_frame s s' id d :
  (∀ a, COMPLETED_JOBS s' !! id = Some a →
        COMPLETED_JOBS s !! id = Some a ∧ deref (heap s') a = deref (heap s) a) →
  (∀ t, threads s' !! id = Some t → pc_temp_dir (at_pc t) = Some d →
        ∃ t', threads s !! id = Some t' ∧ pc_temp_dir (at_pc t') = Some d) →
  owns s' id d → owns s id d.
Proof.
  intros Hc Ht [(a & Ha & Hd)|(t & Hth & Hd)].
  - left. exists a. destruct (Hc _ Ha) as [? <-]. done.
  - right. eauto.
Qed.

Lemma deref_eq h h' a : h' !! a = h !! a → deref h' a = deref h a.
Proof. unfold deref. by intros ->. Qed.

(** A step that leaves the file system, the completed records and the
    directories held by the tasks as they are. *)
Lemma fs_inv_frame s s' :
  fs s' = fs s →
  (∀ id a, COMPLETED_JOBS s' !! id = Some a → COMPLETED_JOBS s !! id = Some a) →
  (∀ id a, COMPLETED_JOBS s !! id = Some a → heap s' !! a = heap s !! a) →
  (∀ id t, threads s' !! id = Some t →
     threads s !! id = Some t
     ∨ (pc_files (fs s) t
        ∧ ∀ d, pc_temp_dir (at_pc t) = Some d →
               ∃ t', threads s !! id = Some t' ∧ pc_temp_dir (at_pc t') = Some d)) →
  fs_inv s → fs_inv s'.
Proof.
  intros Hfs Hc Hh Ht Hinv.
  assert (∀ id d, owns s' id d → owns s id d) as Hown.
  { intros id d. apply owns_frame.
    - intros a Ha. split; [by eapply Hc|]. apply deref_eq. eapply Hh, Hc, Ha.
    - intros t Hth Hd. destruct (Ht _ _ Hth) as [?|[_ ?]]; eauto. }
  apply (fs_inv_update s s' Hinv).
  - intros id d Ho%Hown. rewrite Hfs. split; [by eapply fs_owned|by left].
  - intros id t Hth. rewrite Hfs. destruct (Ht _ _ Hth) as [?|[? _]]; [left|right]; done.
  - intros id a Ha. left. destruct (fs_completed _ Hinv _ _ (Hc _ _ Ha)) as (r & Hr & _).
    exists r. rewrite Hfs. repeat split; eauto. by rewrite (Hh _ _ (Hc _ _ Ha)).
Qed.

End staging.

Section staging_steps.

Variable urlparse_netloc : value → outcome string.

Lemma open_write_spec d name c f f' r :
  open_write d name c f = (f', r) →
  (∀ d', d' ≠ d → f' !! d' = f !! d')
  ∧ (∀ files, f !! d = Some files →
       ∃ text, f' !! d = Some (<[name := text]> files)
               ∧ (∀ u, r = Return u → c = Return (VStr text))).
Proof.
  unfold open_write. destruct (f !! d) as [files|] eqn:Hd.
  - destruct c as [[]|]; intros [= <- <-]; (split;
      [by intros; rewrite lookup_insert_ne
      |intros ? [= <-]; eexists; rewrite lookup_insert_eq; by split]).
  - intros [= <- <-]. split; [done|]. congruence.
Qed.

Lemma open_write_written d name result key f f' u :
  is_Some (f !! d) →
  open_write d name (subscript result key) f = (f', Return u) →
  written f' d name result key.
Proof.
  intros [files Hd] (_ & Hw)%open_write_spec.
  destruct (Hw _ Hd) as (text & Hf' & Hc). exists (<[name := text]> files), text.
  rewrite lookup_insert_eq. eauto.
Qed.

Lemma open_write_keeps d name name' result key c f f' r :
  name ≠ name' →
  open_write d name c f = (f', r) →
  written f d name' result key → written f' d name' result key.
Proof.
  intros Hne (_ & Hw)%open_write_spec (files & text & Hd & Hn & Hs).
  destruct (Hw _ Hd) as (text' & Hf' & _). exists (<[name := text']> files), text.
  by rewrite lookup_insert_ne.
Qed.

(** A task that holds the directory [d] changes the file system inside
    [d] only, and keeps [d] or gives it up. *)
Lemma fs_inv_write s job_id t p g d :
  jobs_inv s → heap_inv s → fs_inv s →
  threads s !! job_id = Some t →
  pc_temp_dir (at_pc t) = Some d →
  (∀ d', d' ≠ d → g !! d' = fs s !! d') →
  is_Some (g !! d) →
  (∀ d', pc_temp_dir p = Some d' → d' = d) →
  pc_files g (goto p t) →
  fs_inv (set_task job_id (goto p t) (set_fs g s)).
Proof.
  intros Hjobs Hheap Hinv Ht Hd Hg Hgd Hp Hfiles.
  assert (COMPLETED_JOBS s !! job_id = None) as Hnone.
  { pose proof (jobs_threads _ Hjobs _ _ Ht) as Hok. unfold thread_ok in Hok.
    destruct (at_pc t); try done; simpl in Hok; tauto. }
  assert (owns s job_id d) as Hme by (right; eauto).
  assert (∀ id d', owns (set_task job_id (goto p t) (set_fs g s)) id d' →
                   owns s id d') as Hown.
  { intros id d'. apply owns_frame; simpl; [done|].
    intros t'. rewrite lookup_insert_Some. intros [[-> <-]|[_ ?]] Hd'; [|by eauto].
    simpl in Hd'. apply Hp in Hd' as ->. eauto. }
  assert (∀ id d', id ≠ job_id → owns s id d' → g !! d' = fs s !! d') as Hother.
  { intros id d' Hne Ho. apply Hg. intros ->. destruct Hne.
    by eapply (fs_owner _ Hinv). }
  apply (fs_inv_update s _ Hinv); simpl.
  - intros id d' Ho%Hown. split; [|by left].
    destruct (decide (d' = d)) as [->|Hne]; [done|].
    rewrite Hg by done. by eapply fs_owned.
  - intros id t'. rewrite lookup_insert_Some. intros [[-> <-]|[Hne Ht']]; [by right|].
    left. split; [done|]. intros d' Hd'. eapply Hother; [done|]. right. eauto.
  - intros id a Ha. left.
    destruct (fs_completed _ Hinv _ _ Ha) as (r & Hr & _). exists r.
    repeat split; try done. intros d' Hd'. eapply (Hother id); [congruence|].
    left. exists a. unfold deref. by rewrite Hr.
Qed.

Lemma fs_inv_run_step s job_id o s' :
  jobs_inv s → heap_inv s → fs_inv s →
  run urlparse_netloc job_id o s = Some s' → fs_inv s'.
Proof.
  intros Hjobs Hheap Hinv H. run_cases H t Ht Hpc.
  all: pose proof (jobs_threads _ Hjobs _ _ Ht) as Hok.
  all: unfold thread_ok in Hok; rewrite Hpc in Hok; simpl in Hok.
  all: pose proof (fs_thread _ Hinv _ _ Ht) as Hfiles.
  all: unfold pc_files in Hfiles; rewrite Hpc in Hfiles.
  all: try (eapply fs_inv_frame; [..|exact Hinv]; simpl;
     [done
     |done
     |intros id' a' Ha'; destruct (heap_completed _ Hheap _ _ Ha');
      rewrite ?lookup_insert_ne by (by apply fresh_heap_ne);
      rewrite ?lookup_alter_ne
        by (intros ->; by eapply (heap_disjoint _ Hheap)); done
     |intros id' t'; rewrite lookup_insert_Some;
      intros [[-> <-]|[_ ?]]; [right|by left];
      unfold pc_files; simpl; split; [done|];
      intros d' [= <-]; exists t; by rewrite Hpc]).
  all: assert (∀ d, pc_temp_dir (at_pc t) = Some d → is_Some (fs s !! d)) as Hdir
    by (intros d Hd; eapply (fs_owned _ Hinv job_id); right; eauto).
  all: rewrite Hpc in Hdir; simpl in Hdir.
  all: try (match goal with
            | H : open_write _ _ _ _ = _ |- _ =>
                pose proof H as Hw; apply open_write_spec in Hw as [Hw1 Hw2];
                destruct (Hdir _ eq_refl) as [files Hfs];
                destruct (Hw2 _ Hfs) as (text & Hg & Htext)
            end;
            eapply fs_inv_write;
            [done|done|done|done|by rewrite Hpc|done|by rewrite Hg
            |intros d' Hd'; simpl in Hd'; congruence
            |unfold pc_files; simpl; try done]).
  - (* line 89: a new directory *)
    clear Hdir Hfiles. set (d := mkdtemp o) in *.
    assert (∀ id d', owns (set_task job_id (goto (L91 result d) t)
                             (set_fs (<[d:=∅]> (fs s)) s)) id d' →
                     owns s id d' ∨ (id = job_id ∧ d' = d)) as Hown.
    { intros id d' [(a & Ha & Hd)|(t' & Ht' & Hd)]; simpl in *.
      - left. left. eauto.
      - apply lookup_insert_Some in Ht' as [[-> <-]|[_ ?]].
        + right. simpl in Hd. by injection Hd as <-.
        + left. right. eauto. }
    assert (∀ id d', owns s id d' → d' ≠ d) as Hne.
    { intros id d' [x Hx]%(fs_owned _ Hinv) ->. congruence. }
    apply (fs_inv_update s _ Hinv); simpl.
    + intros id d' Ho. destruct (Hown _ _ Ho) as [Hold|[-> ->]].
      * split; [|by left]. rewrite lookup_insert_ne by (symmetry; eauto).
        by eapply fs_owned.
      * split; [by rewrite lookup_insert_eq|]. right. split; [done|].
        intros j [Hj|[? _]]%Hown; [|done]. by destruct (Hne _ _ Hj).
    + intros id t'. rewrite lookup_insert_Some. intros [[-> <-]|[_ Ht']]; [by right|].
      left. split; [done|]. intros d' Hd'. rewrite lookup_insert_ne; [done|].
      symmetry. eapply (Hne id). right. eauto.
    + intros id a Ha. left.
      destruct (fs_completed _ Hinv _ _ Ha) as (r & Hr & _). exists r.
      repeat split; try done. intros d' Hd'. rewrite lookup_insert_ne; [done|].
      symmetry. eapply (Hne id). left. exists a. unfold deref. by rewrite Hr.
  - (* line 97: the index document is written *)
    eapply (open_write_written _ _ _ _ (fs s)); [by rewrite Hfs|exact Heqp].
  - (* line 101: the full text is written *)
    split.
    + eapply open_write_keeps; [|done|done].
      intros Heq. by eapply llmstxt_name_ne.
    + intros _. eapply (open_write_written _ _ _ _ (fs s)); [by rewrite Hfs|exact Heqp].
  - (* line 100: no full text *)
    replace s with (set_fs (fs s) s) at 1 by by destruct s.
    eapply fs_inv_write; try done; [by rewrite Hpc|eauto| |].
    + by intros d' [= <-].
    + unfold pc_files, staged. simpl. split; [done|]. intros ?. congruence.
  - (* line 105: the record takes over the directory *)
    set (a := fresh (dom (heap s))) in *.
    destruct Hok as [_ Hnone].
    assert (∀ id a', COMPLETED_JOBS s !! id = Some a' → a ≠ a') as Hfresh.
    { intros id a' Ha'. apply fresh_heap_ne. by eapply heap_completed. }
    apply (fs_inv_update s _ Hinv); simpl.
    + intros id d' Ho.
      assert (owns s id d') as Ho'.
      { destruct Ho as [(a' & Ha' & Hd')|(t' & Ht' & Hd')]; simpl in *.
        - apply lookup_insert_Some in Ha' as [[-> <-]|[_ Ha']].
          + unfold deref in Hd'. rewrite lookup_insert_eq in Hd'.
            injection Hd' as <-. right. exists t. by rewrite Hpc.
          + left. exists a'. split; [done|]. unfold deref in *.
            rewrite lookup_insert_ne in Hd' by eauto. done.
        - apply lookup_insert_Some in Ht' as [[-> <-]|[_ Ht']]; [done|].
          right. eauto. }
      split; [by eapply fs_owned|by left].
    + intros id t'. rewrite lookup_insert_Some. intros [[-> <-]|[_ Ht']]; [by right|].
      by left.
    + intros id a'. rewrite lookup_insert_Some. intros [[-> <-]|[_ Ha']].
      * right. eexists. rewrite lookup_insert_eq. split; [done|].
        right. by eexists _, _, _, _, _.
      * left. destruct (fs_completed _ Hinv _ _ Ha') as (r & Hr & _). exists r.
        rewrite lookup_insert_ne by eauto. done.
  - (* line 126: the record of a failure names no directory *)
    set (a := fresh (dom (heap s))) in *.
    destruct Hok as [_ Hnone].
    assert (∀ id a', COMPLETED_JOBS s !! id = Some a' → a ≠ a') as Hfresh.
    { intros id a' Ha'. apply fresh_heap_ne. by eapply heap_completed. }
    apply (fs_inv_update s _ Hinv); simpl.
    + intros id d' Ho.
      assert (owns s id d') as Ho'.
      { destruct Ho as [(a' & Ha' & Hd')|(t' & Ht' & Hd')]; simpl in *.
        - apply lookup_insert_Some in Ha' as [[-> <-]|[_ Ha']].
          + unfold deref in Hd'. by rewrite lookup_insert_eq in Hd'.
          + left. exists a'. split; [done|]. unfold deref in *.
            rewrite lookup_insert_ne in Hd' by eauto. done.
        - apply lookup_insert_Some in Ht' as [[-> <-]|[_ Ht']]; [done|].
          right. eauto. }
      split; [by eapply fs_owned|by left].
    + intros id t'. rewrite lookup_insert_Some. intros [[-> <-]|[_ Ht']]; [by right|].
      by left.
    + intros id a'. rewrite lookup_insert_Some. intros [[-> <-]|[_ Ha']].
      * right. eexists. rewrite lookup_insert_eq. split; [done|].
        left. by eexists _, _, _.
      * left. destruct (fs_completed _ Hinv _ _ Ha') as (r & Hr & _). exists r.
        rewrite lookup_insert_ne by eauto. done.
Qed.

End staging_steps.

Section reachable_states.

Variable urlparse_netloc : value → outcome string.

Lemma fs_inv_sweep s s' :
  jobs_inv s → fs_inv s → cleanup_old_jobs s = Some s' → fs_inv s'.
Proof.
  intros Hjobs Hinv
    (_ & Hh & _ & _ & Ht & _ & _ & _ & Hc & _ & _ & Hkept)%cleanup_old_jobs_spec.
  assert (∀ id d, owns s' id d → owns s id d) as Hown.
  { intros id d. apply owns_frame.
    - intros a [? _]%Hc. by rewrite Hh.
    - rewrite Ht. eauto. }
  assert (∀ id d, owns s' id d → fs s' !! d = fs s !! d) as Hsame.
  { intros id d Ho. destruct (Hkept d) as [?|(id' & a' & Ha' & Hold & Hd)]; [done|].
    exfalso.
    assert (id' = id) as ->.
    { eapply (fs_owner _ Hinv); [|by apply Hown]. left. eauto. }
    destruct Ho as [(a & [Ha Hnew]%Hc & _)|(t & Hth & Hpc)]; [congruence|].
    rewrite Ht in Hth. pose proof (jobs_threads _ Hjobs _ _ Hth) as Hok.
    unfold thread_ok in Hok. destruct (at_pc t); try done; simpl in Hok;
      destruct Hok; congruence. }
  apply (fs_inv_update s s' Hinv).
  - intros id d Ho. rewrite (Hsame _ _ Ho). split; [|left; by apply Hown].
    eapply fs_owned; eauto.
  - intros id t Hth. left. split; [by rewrite <-Ht|].
    intros d Hd. apply (Hsame id). right. eauto.
  - intros id a Ha. left. destruct (Hc id a) as [[Ha' _] _]; [done|].
    destruct (fs_completed _ Hinv _ _ Ha') as (r & Hr & _). exists r.
    rewrite Hh. repeat split; try done. intros d Hd. apply (Hsame id).
    left. exists a. split; [done|]. unfold deref. by rewrite Hh, Hr.
Qed.

Lemma fs_inv_step s a s' :
  jobs_inv s → heap_inv s → fs_inv s →
  step urlparse_netloc s a = Some s' → fs_inv s'.
Proof.
  intros Hjobs Hheap Hinv.
  destruct a as [data uuid|job_id o|job_id|job_id ft| | |dt]; simpl.
  - destruct (threads s !! uuid) eqn:Hu; [done|]. intros [= <-].
    destruct (generate_state data uuid s) as [->|(u & m & i & ->)]; [done|].
    eapply fs_inv_frame; [..|exact Hinv]; simpl; try done.
    intros id t. rewrite lookup_insert_Some. intros [[<- <-]|[_ ?]]; [|by left].
    right. by split.
  - by apply fs_inv_run_step.
  - intros [= <-].
    destruct (get_status_state job_id s) as (_ & _ & Hc & Hf & _ & Ht & _ & _ & Hh).
    eapply fs_inv_frame; [..|exact Hinv]; [done|by rewrite Hc| |].
    + intros id a Ha. apply Hh. by eapply heap_completed.
    + intros id t. rewrite Ht. by left.
  - by intros [= <-].
  - by intros [= <-].
  - destruct (timers s) as [|due rest]; [done|]. destruct (due <=? clock s); [|done].
    apply fs_inv_sweep; [eapply jobs_inv_frame; [..|exact Hjobs]; simpl; auto|].
    eapply fs_inv_frame; [..|exact Hinv]; simpl; auto.
  - destruct (0 <=? dt); [|done]. intros [= <-].
    eapply fs_inv_frame; [..|exact Hinv]; simpl; auto.
Qed.

Lemma run_timers job_id o s s' :
  run urlparse_netloc job_id o s = Some s' → timers s' = timers s.
Proof. intros H. by run_cases H t Ht Hpc. Qed.

Lemma inv_step s a s' : inv s → step urlparse_netloc s a = Some s' → inv s'.
Proof.
  intros [Hjobs Hheap Hfs Htimers] Hstep. split.
  - by eapply jobs_inv_step.
  - by eapply heap_inv_step.
  - by eapply fs_inv_step.
  - destruct a as [data uuid|job_id o|job_id|job_id ft| | |dt]; simpl in Hstep.
    + destruct (threads s !! uuid); [done|]. injection Hstep as <-.
      by destruct (generate_state data uuid s) as [->|(u & m & i & ->)].
    + by rewrite (run_timers _ _ _ _ Hstep).
    + injection Hstep as <-.
      by destruct (get_status_state job_id s) as (_ & _ & _ & _ & _ & _ & -> & _).
    + by injection Hstep as <-.
    + by injection Hstep as <-.
    + destruct (timers s) as [|due [|]]; try done.
      destruct (due <=? clock s); [|done].
      by apply cleanup_old_jobs_spec in Hstep as (_ & _ & _ & _ & _ & _ & -> & _).
    + destruct (0 <=? dt); [|done]. by injection Hstep as <-.
Qed.

Lemma inv_boot gen now f s : cleanup_old_jobs (boot gen now f) = Some s → inv s.
Proof.
  intros (_ & Hh & Ha & _ & Ht & _ & Hti & _ & Hc & _ & _ & Hkept)%cleanup_old_jobs_spec.
  simpl in *.
  assert (∀ id a, COMPLETED_JOBS s !! id = Some a → False) as Hnone.
  { intros id a [? _]%Hc. done. }
  assert (∀ id d, owns s id d → False) as Hown.
  { intros id d [(a & ? & _)|(t & Hth & _)]; [by eauto|]. by rewrite Ht in Hth. }
  split.
  - split.
    + intros id t. by rewrite Ht.
    + intros id [a Hid]. by rewrite Ha in Hid.
    + intros id [a Hid]. by destruct (Hnone _ _ Hid).
  - split.
    + intros id a. by rewrite Ha.
    + intros id a Hid. by destruct (Hnone _ _ Hid).
    + intros i j a. by rewrite Ha.
  - split.
    + intros id d Ho. by destruct (Hown _ _ Ho).
    + intros i j d Ho. by destruct (Hown _ _ Ho).
    + intros id t. by rewrite Ht.
    + intros id a Hid. by destruct (Hnone _ _ Hid).
  - by rewrite Hti.
Qed.

Lemma reachable_inv s : reachable urlparse_netloc s → inv s.
Proof. induction 1; eauto using inv_boot, inv_step. Qed.

Lemma steps_app s l1 l2 :
  steps urlparse_netloc s (l1 ++ l2)%list
  = steps urlparse_netloc s l1 ≫= λ s', steps urlparse_netloc s' l2.
Proof.
  revert s. induction l1 as [|a l1 IH]; intros s; simpl; [done|].
  destruct (step urlparse_netloc s a); simpl; [apply IH|done].
Qed.

Lemma reachable_steps s l s' :
  reachable urlparse_netloc s → steps urlparse_netloc s l = Some s' →
  reachable urlparse_netloc s'.
Proof.
  revert s. induction l as [|a l IH]; intros s Hs; simpl.
  - by intros [= <-].
  - destruct (step urlparse_netloc s a) as [s1|] eqn:Hstep; simpl; [|done].
    apply IH. by eapply reachable_step.
Qed.

End reachable_states.

(** ** The course of one task *)

Section task.

Variable urlparse_netloc : value → outcome string.

Lemma run_enabled job_id o s t :
  threads s !! job_id = Some t → at_pc t ≠ Done → mkdtemp_fresh o s t →
  is_Some (run urlparse_netloc job_id o s).
Proof.
  intros Ht Hpc Hfresh. unfold run. rewrite Ht. simpl.
  unfold mkdtemp_fresh in Hfresh. unfold process_job_step.
  destruct (at_pc t); simpl in *; try done;
    repeat (match goal with
            | |- context [if ?b then _ else _] => destruct b
            | |- context [match ?x with _ => _ end] => destruct x eqn:?
            end; simpl); try done.
  all: specialize (Hfresh eq_refl); congruence.
Qed.

Lemma run_thread job_id o s s' :
  run urlparse_netloc job_id o s = Some s' →
  ∃ t p, threads s !! job_id = Some t
         ∧ threads s' = <[job_id := goto p t]> (threads s)
         ∧ (remaining p < remaining (at_pc t))%nat
         ∧ (before_mkdtemp p = true → fs s' = fs s).
Proof.
  intros H. run_cases H t Ht Hpc; eexists t, _;
    (split; [done|]); (split; [reflexivity|]); rewrite Hpc; simpl; (split; [lia|done]).
Qed.

(** A task that is left alone returns. *)
Lemma run_to_end_total job_id o n :
  ∀ s t, threads s !! job_id = Some t → (remaining (at_pc t) < n)%nat →
         mkdtemp_fresh o s t →
         ∃ s' k t', run_to_end urlparse_netloc n job_id o s = Some s'
                    ∧ steps urlparse_netloc s (replicate k (Run job_id o)) = Some s'
                    ∧ threads s' !! job_id = Some t' ∧ at_pc t' = Done.
Proof.
  induction n as [|n IH]; intros s t Ht Hlt Hfresh; [lia|].
  simpl. rewrite Ht.
  assert (at_pc t = Done ∨ at_pc t ≠ Done) as [Hd|Hd]
    by (destruct (at_pc t); (by left) || (by right)).
  { rewrite Hd. by exists s, 0%nat, t. }
  destruct (run_enabled job_id o s t) as [s1 Hrun]; [done..|].
  assert (process_job_step urlparse_netloc job_id t o s = Some s1) as Hstep.
  { unfold run in Hrun. by rewrite Ht in Hrun. }
  destruct (run_thread _ _ _ _ Hrun) as (t0 & p & Ht0 & Hth & Hrem & Hfs).
  assert (t0 = t) as -> by congruence.
  destruct (IH s1 (goto p t)) as (s' & k & t' & Hend & Hsteps & Ht' & Hdone).
  { by rewrite Hth, lookup_insert_eq. }
  { simpl. lia. }
  { unfold mkdtemp_fresh in *. simpl. intros Hp. rewrite (Hfs Hp). apply Hfresh.
    destruct (at_pc t), p; try done; simpl in Hrem; lia. }
  exists s', (S k), t'. rewrite Hstep. simpl. rewrite Hrun. simpl.
  destruct (at_pc t); done.
Qed.

Lemma run_other job_id o s s' id :
  run urlparse_netloc job_id o s = Some s' → id ≠ job_id →
  threads s' !! id = threads s !! id
  ∧ ACTIVE_JOBS s' !! id = ACTIVE_JOBS s !! id
  ∧ COMPLETED_JOBS s' !! id = COMPLETED_JOBS s !! id.
Proof.
  intros H Hne. run_cases H t Ht Hpc; simpl;
    by rewrite ?lookup_insert_ne, ?lookup_delete_ne by done.
Qed.

Lemma run_late job_id o s s' t :
  run urlparse_netloc job_id o s = Some s' → threads s !! job_id = Some t →
  phase_of (at_pc t) = Moving ∨ phase_of (at_pc t) = Finished →
  COMPLETED_JOBS s' = COMPLETED_JOBS s ∧ heap s' = heap s ∧ fs s' = fs s
  ∧ ACTIVE_JOBS s' = delete job_id (ACTIVE_JOBS s)
  ∧ threads s' = <[job_id := goto Done t]> (threads s).
Proof.
  intros H Ht0 Hph. run_cases H t' Ht Hpc; simplify_eq;
    rewrite Hpc in Hph; simpl in Hph; by destruct Hph.
Qed.

Lemma run_heap_completed job_id o s s' id a :
  heap_inv s → run urlparse_netloc job_id o s = Some s' →
  COMPLETED_JOBS s !! id = Some a → heap s' !! a = heap s !! a.
Proof.
  intros Hheap H Ha. pose proof (heap_completed _ Hheap _ _ Ha) as Hsome.
  run_cases H t Ht Hpc; simpl; try done.
  - rewrite lookup_insert_ne; [done|]. by apply fresh_heap_ne.
  - rewrite lookup_alter_ne; [done|]. intros ->. by eapply (heap_disjoint _ Hheap).
  - rewrite lookup_insert_ne; [done|]. by apply fresh_heap_ne.
  - rewrite lookup_insert_ne; [done|]. by apply fresh_heap_ne.
Qed.

Lemma completed_late s id :
  jobs_inv s → is_Some (COMPLETED_JOBS s !! id) → late s id.
Proof.
  intros Hjobs Hc. destruct (jobs_completed _ Hjobs _ Hc) as [t Ht]. exists t.
  split; [done|]. pose proof (jobs_threads _ Hjobs _ _ Ht) as Hok.
  unfold thread_ok in Hok. destruct Hc as [a Ha].
  destruct (phase_of (at_pc t)); try tauto; destruct Hok; congruence.
Qed.

Lemma finished_late s id : finished s id → late s id.
Proof. intros (t & Ht & Hpc). exists t. rewrite Hpc. by eauto. Qed.

(** A step leaves a record of [COMPLETED_JOBS] as it is, unless it is the
    sweep and removes it. *)
Lemma step_completed_record s act s' id a r :
  inv s → COMPLETED_JOBS s !! id = Some a → heap s !! a = Some r →
  step urlparse_netloc s act = Some s' →
  (COMPLETED_JOBS s' !! id = Some a ∧ heap s' !! a = Some r)
  ∨ (act = Fire ∧ COMPLETED_JOBS s' !! id = None).
Proof.
  intros [Hjobs Hheap _ _] Ha Hr.
  destruct act as [data uuid|job_id o|job_id|job_id ft| | |dt]; simpl.
  - destruct (threads s !! uuid); [done|]. intros [= <-]. left.
    by destruct (generate_state data uuid s) as [->|(u & m & i & ->)].
  - intros Hrun. left. rewrite (run_heap_completed _ _ _ _ _ _ Hheap Hrun Ha).
    split; [|done]. destruct (decide (id = job_id)) as [->|Hne].
    + destruct (completed_late s job_id) as (t & Ht & Hph); [done|by eauto|].
      by destruct (run_late _ _ _ _ _ Hrun Ht Hph) as (-> & _).
    + by destruct (run_other _ _ _ _ id Hrun Hne) as (_ & _ & ->).
  - intros [= <-]. left.
    destruct (get_status_state job_id s) as (_ & _ & -> & _ & _ & _ & _ & _ & Hh).
    rewrite Hh; eauto.
  - intros [= <-]. by left.
  - intros [= <-]. by left.
  - destruct (timers s) as [|due rest]; [done|]. destruct (due <=? clock s); [|done].
    intros (_ & Hh & _ & _ & _ & _ & _ & Hsome & Hc & _)%cleanup_old_jobs_spec.
    simpl in *. rewrite Hh. destruct (Hsome _ _ Ha) as [[] Hold].
    + right. split; [done|]. destruct (COMPLETED_JOBS s' !! id) as [a'|] eqn:E; [|done].
      apply Hc in E as [? ?]. congruence.
    + left. split; [|done]. apply Hc. done.
  - destruct (0 <=? dt); [|done]. intros [= <-]. by left.
Qed.

(** The task of a job that is late inserts no record any more. *)
Lemma step_late s act s' id :
  late s id → step urlparse_netloc s act = Some s' →
  late s' id
  ∧ (finished s id → finished s' id)
  ∧ (∀ a, COMPLETED_JOBS s' !! id = Some a → COMPLETED_JOBS s !! id = Some a).
Proof.
  intros (t & Ht & Hph).
  destruct act as [data uuid|job_id o|job_id|job_id ft| | |dt]; simpl.
  - destruct (threads s !! uuid) eqn:Hu; [done|]. intros [= <-].
    destruct (generate_state data uuid s) as [->|(u & m & i & ->)].
    { repeat split; try done. by exists t. }
    assert (uuid ≠ id) by congruence. unfold late, finished. simpl.
    rewrite lookup_insert_ne by done. repeat split; eauto.
  - intros Hrun. destruct (decide (id = job_id)) as [->|Hne].
    + destruct (run_late _ _ _ _ _ Hrun Ht Hph) as (Hc & _ & _ & _ & Hth).
      unfold late, finished. rewrite Hth, lookup_insert_eq, Hc.
      repeat split; eauto.
    + destruct (run_other _ _ _ _ id Hrun Hne) as (Hth & _ & Hc).
      unfold late, finished. rewrite Hth, Hc. repeat split; eauto.
  - intros [= <-].
    destruct (get_status_state job_id s) as (_ & _ & Hc & _ & _ & Hth & _).
    unfold late, finished. rewrite Hth, Hc. repeat split; eauto.
  - intros [= <-]. repeat split; try done. by exists t.
  - intros [= <-]. repeat split; try done. by exists t.
  - destruct (timers s) as [|due rest]; [done|]. destruct (due <=? clock s); [|done].
    intros (_ & _ & _ & _ & Hth & _ & _ & _ & Hc & _)%cleanup_old_jobs_spec.
    simpl in *. unfold late, finished. rewrite Hth. repeat split; eauto.
    intros a. rewrite Hc. tauto.
  - destruct (0 <=? dt); [|done]. intros [= <-]. repeat split; try done. by exists t.
Qed.

Lemma steps_late l :
  ∀ s s' id,
    reachable urlparse_netloc s → late s id →
    steps urlparse_netloc s l = Some s' →
    late s' id ∧ (finished s id → finished s' id)
    ∧ (COMPLETED_JOBS s !! id = None → COMPLETED_JOBS s' !! id = None).
Proof.
  induction l as [|act l IH]; intros s s' id Hreach Hl; simpl.
  - by intros [= <-].
  - destruct (step urlparse_netloc s act) as [s1|] eqn:Hstep; simpl; [|done].
    intros Hsteps. destruct (step_late _ _ _ _ Hl Hstep) as (Hl1 & Hf1 & Hc1).
    destruct (IH s1 s' id) as (Hl' & Hf' & Hc'); [by eapply reachable_step|done..|].
    repeat split; auto. intros Hnone. apply Hc'.
    apply eq_None_not_Some. intros [a1 E]. apply Hc1 in E. congruence.
Qed.

Lemma finished_inactive s id :
  reachable urlparse_netloc s → finished s id → ACTIVE_JOBS s !! id = None.
Proof.
  intros [Hjobs _ _ _]%reachable_inv (t & Ht & Hpc).
  pose proof (jobs_threads _ Hjobs _ _ Ht) as Hok. unfold thread_ok in Hok.
  by rewrite Hpc in Hok.
Qed.

(** A job that is in [COMPLETED_JOBS] and not in [ACTIVE_JOBS] has
    returned. *)
Lemma completed_finished s id :
  reachable urlparse_netloc s → is_Some (COMPLETED_JOBS s !! id) →
  ACTIVE_JOBS s !! id = None → finished s id.
Proof.
  intros [Hjobs _ _ _]%reachable_inv Hc Hact.
  destruct (completed_late s id Hjobs Hc) as (t & Ht & [Hph|Hph]).
  - pose proof (jobs_threads _ Hjobs _ _ Ht) as Hok. unfold thread_ok in Hok.
    rewrite Hph in Hok. destruct Hok. congruence.
  - exists t. split; [done|]. by destruct (at_pc t).
Qed.

(** Once its record is made, a job keeps it until the sweep removes it,
    and is never again in [ACTIVE_JOBS] once it has left it. *)
Lemma terminal_stable l :
  ∀ s s' id a r,
    reachable urlparse_netloc s →
    COMPLETED_JOBS s !! id = Some a → heap s !! a = Some r →
    steps urlparse_netloc s l = Some s' →
    ((COMPLETED_JOBS s' !! id = Some a ∧ heap s' !! a = Some r)
     ∨ (Fire ∈ l ∧ COMPLETED_JOBS s' !! id = None))
    ∧ (ACTIVE_JOBS s !! id = None → ACTIVE_JOBS s' !! id = None).
Proof.
  induction l as [|act l IH]; intros s s' id a r Hreach Ha Hr; simpl.
  - intros [= <-]. split; [by left|done].
  - destruct (step urlparse_netloc s act) as [s1|] eqn:Hstep; simpl; [|done].
    intros Hsteps. pose proof (reachable_inv _ _ Hreach) as Hinv.
    assert (late s id) as Hl by (apply completed_late; [apply Hinv|by eauto]).
    assert (reachable urlparse_netloc s1) as Hreach1 by by eapply reachable_step.
    split.
    + destruct (step_completed_record _ _ _ _ _ _ Hinv Ha Hr Hstep)
        as [[Ha1 Hr1]|[-> Hnone]].
      * destruct (IH _ _ _ _ _ Hreach1 Ha1 Hr1 Hsteps) as [[?|[? ?]] _];
          [by left|right]. split; [by right|done].
      * right. split; [by left|].
        destruct (step_late _ _ _ _ Hl Hstep) as (Hl1 & _).
        by apply (steps_late l s1 s' id).
    + intros Hact. apply finished_inactive; [by eapply reachable_steps|].
      destruct (steps_late (act :: l) s s' id) as (_ & Hf & _); [done|done|..].
      { simpl. by rewrite Hstep. }
      apply Hf. apply completed_finished; eauto.
Qed.

Lemma run_early job_id o s s' t :
  run urlparse_netloc job_id o s = Some s' → threads s !! job_id = Some t →
  early t →
  ∃ t', threads s' !! job_id = Some t' ∧ (early t' ∨ has_record s' job_id).
Proof.
  intros H Ht0 Hearly. unfold early in *.
  run_cases H t' Ht Hpc; simplify_eq; rewrite Hpc in Hearly; simpl in *.
  all: eexists; (split; [apply lookup_insert_eq|]); simpl; auto.
  all: try (by destruct Hearly).
  all: right; eexists _, _; (split; [apply lookup_insert_eq|]);
    (split; [apply lookup_insert_eq|]); by left + right.
Qed.

Lemma run_steps_record job_id o k :
  ∀ s s' t t',
    inv s → threads s !! job_id = Some t →
    steps urlparse_netloc s (replicate k (Run job_id o)) = Some s' →
    threads s' !! job_id = Some t' → at_pc t' = Done →
    early t ∨ has_record s job_id →
    has_record s' job_id.
Proof.
  induction k as [|k IH]; intros s s' t t' Hinv Ht; simpl.
  - intros [= <-] Ht' Hdone [Hph|?]; [|done].
    assert (t' = t) as -> by congruence. unfold early in Hph.
    rewrite Hdone in Hph. by destruct Hph.
  - destruct (run urlparse_netloc job_id o s) as [s1|] eqn:Hrun; simpl; [|done].
    intros Hsteps Ht' Hdone Hcase.
    assert (inv s1) as Hinv1
      by (apply (inv_step urlparse_netloc s (Run job_id o)); [done|exact Hrun]).
    destruct (run_thread _ _ _ _ Hrun) as (t0 & p & Ht0 & Hth & _).
    assert (threads s1 !! job_id = Some (goto p t0)) as Ht1
      by by rewrite Hth, lookup_insert_eq.
    eapply (IH s1 s' _ t' Hinv1 Ht1 Hsteps Ht' Hdone).
    destruct Hcase as [Hearly|(a & r & Ha & Hr & Hst)].
    + destruct (run_early _ _ _ _ _ Hrun Ht Hearly) as (t1 & Ht1' & Hcase).
      by assert (t1 = goto p t0) as <- by congruence.
    + right. exists a, r.
      destruct (step_completed_record s (Run job_id o) s1 job_id a r)
        as [[? ?]|[? _]]; done.
Qed.

(** A task that is left alone ends with its record made. *)
Lemma run_to_end_terminated job_id o s t :
  reachable urlparse_netloc s → threads s !! job_id = Some t →
  early t → mkdtemp_fresh o s t →
  ∃ s', run_to_end urlparse_netloc 11 job_id o s = Some s'
        ∧ reachable urlparse_netloc s'
        ∧ finished s' job_id ∧ terminated s' job_id.
Proof.
  intros Hreach Ht Hearly Hfresh.
  destruct (run_to_end_total job_id o 11 s t) as (s' & k & t' & Hend & Hsteps & Ht' & Hdone);
    [done| |done|].
  { destruct (at_pc t); simpl; lia. }
  assert (reachable urlparse_netloc s') as Hreach' by by eapply reachable_steps.
  exists s'. repeat split; try done.
  - by exists t'.
  - destruct (reachable_inv _ _ Hreach') as [Hjobs _ _ _].
    pose proof (jobs_threads _ Hjobs _ _ Ht') as Hok. unfold thread_ok in Hok.
    by rewrite Hdone in Hok.
  - eapply (run_steps_record job_id o k s s' t t'); eauto using reachable_inv.
Qed.

End task.

(** ** Status queries and downloads *)

Section queries.

Variable urlparse_netloc : value → outcome string.

Lemma del_if_in_deref k a h r :
  h !! a = Some r → del_if_in k a h !! a = Some (delete k r).
Proof.
  intros Hr. unfold del_if_in, deref. rewrite Hr. simpl.
  destruct (r !! k) eqn:Hk.
  - by rewrite lookup_alter_eq, Hr.
  - rewrite Hr. f_equal. symmetry. by apply delete_id.
Qed.

(** The answer for a job that is in [COMPLETED_JOBS] only: a copy of the
    record without the two internal fields. *)
Lemma get_status_completed s job_id a r :
  ACTIVE_JOBS s !! job_id = None → COMPLETED_JOBS s !! job_id = Some a →
  heap s !! a = Some r →
  (get_status job_id s).2 = Json 200 (VDict (delete "temp_dir" (delete "files" r))).
Proof.
  intros Hact Hcom Hr. unfold get_status. rewrite Hact, Hcom. simpl.
  unfold deref at 1.
  erewrite del_if_in_deref; [done|]. erewrite del_if_in_deref; [done|].
  rewrite lookup_insert_eq. unfold deref. by rewrite Hr.
Qed.

Lemma get_status_active s job_id a :
  ACTIVE_JOBS s !! job_id = Some a →
  get_status job_id s = (s, Json 200 (VDict (deref (heap s) a))).
Proof. intros Hact. unfold get_status. by rewrite Hact. Qed.

Lemma get_status_unknown s job_id :
  ACTIVE_JOBS s !! job_id = None → COMPLETED_JOBS s !! job_id = None →
  get_status job_id s = (s, not_found "Job not found").
Proof. intros Hact Hcom. unfold get_status. by rewrite Hact, Hcom. Qed.

(** C6: a status query for a job of the completed set answers with a body
    that has neither a [files] nor a [temp_dir] field; for a job of the
    pending set it answers with the live record, which has a status, a
    progress note, the url and the start time; for an identifier in
    neither set it answers 404. *)
Theorem get_status_response s job_id :
  reachable urlparse_netloc s →
  (is_Some (COMPLETED_JOBS s !! job_id) →
   ∃ body, (get_status job_id s).2 = Json 200 (VDict body)
           ∧ body !! "files" = None ∧ body !! "temp_dir" = None)
  ∧ (∀ a, ACTIVE_JOBS s !! job_id = Some a →
     ∃ r, heap s !! a = Some r
          ∧ (get_status job_id s).2 = Json 200 (VDict r)
          ∧ r !! "status" = Some (VStr "processing")
          ∧ is_Some (r !! "progress") ∧ is_Some (r !! "url")
          ∧ is_Some (r !! "start_time"))
  ∧ (ACTIVE_JOBS s !! job_id = None → COMPLETED_JOBS s !! job_id = None →
     (get_status job_id s).2 = Json 404 (VDict {[ "error" := VStr "Job not found" ]})).
Proof.
  intros [_ Hheap _ _]%reachable_inv.
  assert (∀ a, ACTIVE_JOBS s !! job_id = Some a →
            ∃ r, heap s !! a = Some r
                 ∧ (get_status job_id s).2 = Json 200 (VDict r)
                 ∧ active_shape r) as Hactive.
  { intros a Ha. destruct (heap_active _ Hheap _ _ Ha) as (r & Hr & Hshape).
    exists r. rewrite (get_status_active _ _ _ Ha). unfold deref. by rewrite Hr. }
  split; [|split].
  - intros [a Hcom]. destruct (ACTIVE_JOBS s !! job_id) as [a'|] eqn:Hact.
    + destruct (Hactive a') as (r & _ & Hresp & Hshape); [done|].
      exists r. apply active_shape_lookup in Hshape. tauto.
    + destruct (heap_completed _ Hheap _ _ Hcom) as [r Hr].
      exists (delete "temp_dir" (delete "files" r)).
      rewrite (get_status_completed _ _ _ _ Hact Hcom Hr).
      split; [done|]. split; [|apply lookup_delete_eq].
      rewrite lookup_delete_ne by done. apply lookup_delete_eq.
  - intros a Ha. destruct (Hactive a Ha) as (r & Hr & Hresp & Hshape).
    exists r. apply active_shape_lookup in Hshape. tauto.
  - intros Hact Hcom. by rewrite get_status_unknown.
Qed.

(** *** Downloads *)

Lemma download_file_unknown s job_id file_type :
  COMPLETED_JOBS s !! job_id = None →
  download_file job_id file_type s = not_found "Job not found".
Proof. intros Hcom. unfold download_file. by rewrite Hcom. Qed.

(** A download reads the record, and through it the file system. *)
Lemma download_file_ext s s' job_id file_type :
  COMPLETED_JOBS s' !! job_id = COMPLETED_JOBS s !! job_id →
  (∀ a, COMPLETED_JOBS s !! job_id = Some a → heap s' !! a = heap s !! a) →
  fs s' = fs s →
  download_file job_id file_type s' = download_file job_id file_type s.
Proof.
  intros Hc Hh Hf. unfold download_file. rewrite Hc, Hf.
  destruct (COMPLETED_JOBS s !! job_id) as [a|]; [|done].
  unfold deref. by rewrite Hh.
Qed.

Lemma download_file_failed s job_id file_type a r :
  COMPLETED_JOBS s !! job_id = Some a → heap s !! a = Some r →
  r !! "status" = Some (VStr "failed") →
  download_file job_id file_type s
  = Json 400 (VDict {[ "error" := VStr "Job not completed" ]}).
Proof.
  intros Ha Hr Hst. unfold download_file, deref. rewrite Ha, Hr. simpl.
  by rewrite Hst.
Qed.

(** What a download answers for a record made by a successful task. *)
Lemma download_file_completed s job_id file_type a t result d domain n :
  COMPLETED_JOBS s !! job_id = Some a →
  heap s !! a = Some (completed_record t result d domain n) →
  download_file job_id file_type s
  = if String.eqb file_type "llmstxt"
    then send_file (fs s) (VPath d (llmstxt_name domain))
    else if String.eqb file_type "llms_fulltxt" && truthy (include_full_text t)
    then send_file (fs s) (VPath d (llms_fulltxt_name domain))
    else not_found "File not found".
Proof.
  intros Ha Hr. unfold download_file, deref. rewrite Ha, Hr. simpl.
  destruct (completed_record_lookup t result d domain n) as (-> & _ & _ & -> & _).
  simpl. unfold get_or_None.
  destruct (files_record_lookup t d domain) as [-> ->]. simpl.
  destruct (String.eqb file_type "llmstxt"); [done|]. simpl.
  destruct (String.eqb file_type "llms_fulltxt"); [|done]. simpl.
  by destruct (truthy (include_full_text t)).
Qed.

Lemma send_file_written f d name result key :
  written f d name result key →
  ∃ text, f !! d ≫= (λ files, files !! name) = Some text
          ∧ subscript result key = Return (VStr text)
          ∧ send_file f (VPath d name) = Attachment text.
Proof.
  intros (files & text & Hd & Hn & Hs). exists text. simpl.
  rewrite Hd. simpl. by rewrite Hn.
Qed.

End queries.

Section downloads.

Variable urlparse_netloc : value → outcome string.

(** C5, amended: a download for an identifier that is not in the completed
    set (unknown, or still pending) answers 404; for a record of the
    completed set whose status is not [completed] it answers 400; for a
    completed record and a kind whose path is absent or null, or a kind
    that does not exist, it answers 404; otherwise it answers with the
    bytes of the staged file, which are the text of the generator's result
    that the task wrote. *)
Theorem download_file_cases s job_id file_type :
  reachable urlparse_netloc s →
  (COMPLETED_JOBS s !! job_id = None →
   download_file job_id file_type s
   = Json 404 (VDict {[ "error" := VStr "Job not found" ]}))
  ∧ (∀ a r, COMPLETED_JOBS s !! job_id = Some a → heap s !! a = Some r →
     (r !! "status" ≠ Some (VStr "completed") →
      download_file job_id file_type s
      = Json 400 (VDict {[ "error" := VStr "Job not completed" ]}))
     ∧ (r !! "status" = Some (VStr "completed") →
        ∃ files result,
          r !! "files" = Some (VDict files) ∧ r !! "result" = Some result
          ∧ ((file_type ≠ "llmstxt" ∧ file_type ≠ "llms_fulltxt")
             ∨ truthy (get_or_None files file_type) = false →
             download_file job_id file_type s
             = Json 404 (VDict {[ "error" := VStr "File not found" ]}))
          ∧ (file_type = "llmstxt" ∨ file_type = "llms_fulltxt" →
             truthy (get_or_None files file_type) = true →
             ∃ dir name text,
               files !! file_type = Some (VPath dir name)
               ∧ fs s !! dir ≫= (λ fl, fl !! name) = Some text
               ∧ subscript result file_type = Return (VStr text)
               ∧ download_file job_id file_type s = Attachment text))).
Proof.
  intros [_ _ Hfs _]%reachable_inv. split; [apply download_file_unknown|].
  intros a r Ha Hr. destruct (fs_completed _ Hfs _ _ Ha) as (r' & Hr' & Hshape).
  assert (r' = r) as -> by congruence.
  destruct Hshape as [(t & e & n & ->)|(t & res & d & domain & n & -> & Hidx & Hfull)].
  - split; [|done]. intros _. by eapply download_file_failed.
  - split; [done|]. intros _. exists (files_record t d domain), res.
    split; [done|]. split; [done|].
    rewrite (download_file_completed _ _ _ _ _ _ _ _ _ Ha Hr). unfold get_or_None.
    destruct (files_record_lookup t d domain) as [Hl1 Hl2].
    split.
    + intros [[Hn1 Hn2]|Hfalse].
      * apply String.eqb_neq in Hn1, Hn2. by rewrite Hn1, Hn2.
      * destruct (String.eqb_spec file_type "llmstxt") as [->|_];
          [by rewrite Hl1 in Hfalse|].
        destruct (String.eqb_spec file_type "llms_fulltxt") as [->|_]; [|done].
        rewrite Hl2 in Hfalse. simpl in *.
        by destruct (truthy (include_full_text t)).
    + intros [->| ->] Htrue.
      * destruct (send_file_written _ _ _ _ _ Hidx) as (text & ? & ? & ?).
        by exists d, (llmstxt_name domain), text.
      * rewrite Hl2 in *. simpl in *.
        destruct (truthy (include_full_text t)) eqn:Hincl; [|done].
        destruct (send_file_written _ _ _ _ _ (Hfull eq_refl)) as (text & ? & ? & ?).
        by exists d, (llms_fulltxt_name domain), text.
Qed.

(** *** Status queries leave the records alone *)

Lemma status_queries_state ids :
  ∀ s, let s' := status_queries ids s in
       ACTIVE_JOBS s' = ACTIVE_JOBS s ∧ COMPLETED_JOBS s' = COMPLETED_JOBS s
       ∧ fs s' = fs s ∧ threads s' = threads s
       ∧ ∀ a, is_Some (heap s !! a) → heap s' !! a = heap s !! a.
Proof.
  induction ids as [|id ids IH]; intros s; simpl; [done|].
  destruct (get_status_state id s) as (_ & Ha & Hc & Hf & _ & Ht & _ & _ & Hh).
  destruct (IH (get_status id s).1) as (Ha' & Hc' & Hf' & Ht' & Hh').
  unfold status_queries in *. simpl in *.
  rewrite Ha', Hc', Hf', Ht'. repeat split; try done.
  intros a Hsome. rewrite Hh'; [by apply Hh|]. by rewrite Hh.
Qed.

(** C9: a status query works on a copy of the record.  After any number
    of status queries the record stored for a completed job is the very
    same object with the same content, which for a successful job has its
    [files] and [temp_dir] entries, and every download answers as before;
    in particular the download of the index of a successful job still
    returns the file. *)
Theorem get_status_keeps_record s ids job_id a r :
  reachable urlparse_netloc s →
  COMPLETED_JOBS s !! job_id = Some a → heap s !! a = Some r →
  let s' := status_queries ids s in
  COMPLETED_JOBS s' !! job_id = Some a ∧ heap s' !! a = Some r
  ∧ (∀ file_type,
       download_file job_id file_type s' = download_file job_id file_type s)
  ∧ (r !! "status" = Some (VStr "completed") →
     is_Some (r !! "files") ∧ is_Some (r !! "temp_dir")
     ∧ ∃ text, download_file job_id "llmstxt" s' = Attachment text).
Proof.
  intros Hreach Ha Hr s'.
  destruct (status_queries_state ids s) as (_ & Hc & Hf & _ & Hh). fold s' in Hc, Hf, Hh.
  assert (∀ file_type,
            download_file job_id file_type s' = download_file job_id file_type s)
    as Hdl.
  { intros file_type. apply download_file_ext; [by rewrite Hc| |done].
    intros a' Ha'. apply Hh. assert (a' = a) as -> by congruence. eauto. }
  split; [by rewrite Hc|]. split; [rewrite Hh; eauto|]. split; [done|].
  intros Hst. destruct (reachable_inv _ _ Hreach) as [_ _ Hfs _].
  destruct (fs_completed _ Hfs _ _ Ha) as (r' & Hr' & Hshape).
  assert (r' = r) as -> by congruence.
  destruct Hshape as [(t & e & n & ->)|(t & res & d & domain & n & -> & Hidx & _)];
    [done|].
  split; [by eexists|]. split; [by eexists|].
  rewrite Hdl, (download_file_completed _ _ _ _ _ _ _ _ _ Ha Hr). simpl.
  destruct (send_file_written _ _ _ _ _ Hidx) as (text & _ & _ & ?). eauto.
Qed.

End downloads.

(** ** The life of a job *)

Section lifecycle.

Variable urlparse_netloc : value → outcome string.

(** C1, amended: the move of a job to the completed set takes two
    statements.  Before the first statement of its task a job is in
    neither set; while it is processed it is in the pending set only; the
    statement that makes the record (line 105 or 126) inserts it into the
    completed set and leaves the identifier in the pending set, where the
    status query still answers with the pending record, and the next
    statement of the task removes it from the pending set; once the task
    has returned the identifier is not in the pending set.  From its first
    statement to its return a task is never in neither set. *)
Theorem job_in_sets s job_id t :
  reachable urlparse_netloc s → threads s !! job_id = Some t →
  match phase_of (at_pc t) with
  | NotStarted =>
      ACTIVE_JOBS s !! job_id = None ∧ COMPLETED_JOBS s !! job_id = None
  | Processing =>
      is_Some (ACTIVE_JOBS s !! job_id) ∧ COMPLETED_JOBS s !! job_id = None
  | Moving =>
      ∃ a r, ACTIVE_JOBS s !! job_id = Some a ∧ heap s !! a = Some r
             ∧ r !! "status" = Some (VStr "processing")
             ∧ (get_status job_id s).2 = Json 200 (VDict r)
  | Finished => ACTIVE_JOBS s !! job_id = None
  end
  ∧ ((∃ result d domain, at_pc t = L105 result d domain) ∨ (∃ e, at_pc t = L123 e) →
     ∀ o, ∃ s1, run urlparse_netloc job_id o s = Some s1
       ∧ is_Some (ACTIVE_JOBS s1 !! job_id) ∧ is_Some (COMPLETED_JOBS s1 !! job_id)
       ∧ ∀ o', ∃ s2, run urlparse_netloc job_id o' s1 = Some s2
           ∧ ACTIVE_JOBS s2 !! job_id = None
           ∧ is_Some (COMPLETED_JOBS s2 !! job_id)).
Proof.
  intros Hreach Ht. destruct (reachable_inv _ _ Hreach) as [Hjobs Hheap _ _].
  pose proof (jobs_threads _ Hjobs _ _ Ht) as Hok. unfold thread_ok in Hok.
  split.
  - destruct (phase_of (at_pc t)); try done.
    destruct Hok as [a Ha]. destruct (heap_active _ Hheap _ _ Ha) as (r & Hr & Hshape).
    exists a, r. repeat split; try done.
    + by apply active_shape_lookup in Hshape as (? & _).
    + rewrite (get_status_active _ _ _ Ha). unfold deref. by rewrite Hr.
  - intros Hpc o. unfold run. rewrite Ht. simpl. unfold process_job_step.
    destruct Hpc as [(res & d & domain & Hpc)|(e & Hpc)]; rewrite Hpc in *;
      simpl in *; destruct Hok as [[a Ha] _];
      (eexists; split; [done|]); simpl; rewrite !lookup_insert_eq;
      (split; [by eauto|]); (split; [by eauto|]);
      intros o'; (eexists; split; [done|]); simpl;
      by rewrite lookup_delete_eq, lookup_insert_eq.
Qed.

(** C2: a task that runs to its end leaves its job with a record whose
    status is [completed] or [failed] and out of the pending set; and no
    step of the system changes a record of the completed set (the sweep
    removes it in the end) or puts its identifier back into the pending
    set. *)
Theorem job_terminal_once s :
  reachable urlparse_netloc s →
  (∀ job_id t o,
     threads s !! job_id = Some t → early t → mkdtemp_fresh o s t →
     ∃ s', run_to_end urlparse_netloc 11 job_id o s = Some s'
           ∧ reachable urlparse_netloc s' ∧ terminated s' job_id)
  ∧ (∀ job_id a r l s',
       COMPLETED_JOBS s !! job_id = Some a → heap s !! a = Some r →
       steps urlparse_netloc s l = Some s' →
       terminal_status r
       ∧ ((COMPLETED_JOBS s' !! job_id = Some a ∧ heap s' !! a = Some r)
          ∨ (Fire ∈ l ∧ COMPLETED_JOBS s' !! job_id = None))
       ∧ (ACTIVE_JOBS s !! job_id = None → ACTIVE_JOBS s' !! job_id = None)).
Proof.
  intros Hreach. split.
  - intros job_id t o Ht Hearly Hfresh.
    destruct (run_to_end_terminated urlparse_netloc job_id o s t)
      as (s' & ? & ? & _ & ?); eauto.
  - intros job_id a r l s' Ha Hr Hsteps. split.
    + destruct (reachable_inv _ _ Hreach) as [_ _ Hfs _].
      destruct (fs_completed _ Hfs _ _ Ha) as (r' & Hr' & Hshape).
      assert (r' = r) as -> by congruence.
      apply completed_shape_lookup in Hshape. unfold terminal_status. tauto.
    + by eapply terminal_stable.
Qed.



End lifecycle.

(** ** One call of [process_job] *)

Section process_job_call.

Variable urlparse_netloc : value → outcome string.

Lemma run_to_end_S n job_id o s t :
  threads s !! job_id = Some t → at_pc t ≠ Done →
  run_to_end urlparse_netloc (S n) job_id o s
  = process_job_step urlparse_netloc job_id t o s
      ≫= run_to_end urlparse_netloc n job_id o.
Proof. intros Ht Hpc. simpl. rewrite Ht. by destruct (at_pc t). Qed.

Lemma run_to_end_Done n job_id o s t :
  threads s !! job_id = Some t → at_pc t = Done →
  run_to_end urlparse_netloc (S n) job_id o s = Some s.
Proof. intros Ht Hpc. simpl. by rewrite Ht, Hpc. Qed.

(** Reduction of the projections of an explicit state. *)
Ltac proj :=
  cbn [generator heap ACTIVE_JOBS COMPLETED_JOBS fs clock threads timers calls
       set_heap set_ACTIVE_JOBS set_COMPLETED_JOBS set_fs set_clock set_threads
       set_timers set_calls set_task alloc goto url max_urls include_full_text
       at_pc fst snd process_job_step mbind option_bind].

(** The next statement of the task that is being run to its end. *)
Ltac task_step :=
  erewrite run_to_end_S; [|proj; apply lookup_insert_eq|proj; discriminate];
  proj; rewrite ?lookup_insert_eq; proj.

Ltac task_done :=
  erewrite run_to_end_Done; [|proj; apply lookup_insert_eq|proj; reflexivity].

(** The exception handler, from line 123 to the return. *)
Lemma handler_runs n job_id o s t e :
  threads s !! job_id = Some t → at_pc t = L123 e →
  ∃ s' a, run_to_end urlparse_netloc (S (S (S n))) job_id o s = Some s'
    ∧ COMPLETED_JOBS s' !! job_id = Some a
    ∧ heap s' !! a = Some (failed_record t e (clock s))
    ∧ ACTIVE_JOBS s' !! job_id = None
    ∧ fs s' = fs s ∧ calls s' = calls s.
Proof.
  intros Ht Hpc.
  erewrite run_to_end_S; [|exact Ht|by rewrite Hpc].
  unfold process_job_step at 1. rewrite Hpc. proj.
  task_step. task_done.
  eexists _, _. split; [reflexivity|]. proj.
  rewrite !lookup_insert_eq, lookup_delete_eq. done.
Qed.

Lemma contains_not_initialized :
  contains "Generator not initialized - check API keys" "not initialized".
Proof. by exists "Generator ", " - check API keys". Qed.

(** A call of [process_job] all of whose statements succeed, and what
    it leaves in the staging area. *)
Lemma process_job_succeeds job_id u m i o s result netloc index :
  generator s = true →
  generate_llmstxt o = Return result →
  fs s !! mkdtemp o = None →
  urlparse_netloc u = Return netloc →
  subscript result "llmstxt" = Return (VStr index) →
  (truthy i = true → ∃ full, subscript result "llms_fulltxt" = Return (VStr full)) →
  let domain := str_replace netloc "www." "" in
  let d := mkdtemp o in
  ∃ s' a files,
    process_job urlparse_netloc job_id u m i o s = Some s'
    ∧ COMPLETED_JOBS s' !! job_id = Some a
    ∧ ACTIVE_JOBS s' !! job_id = None
    ∧ heap s' !! a
      = Some (completed_record (Task u m i L73) result d domain (clock s))
    ∧ files_record (Task u m i L73) d domain
      = {[ "llmstxt" := VPath d (llmstxt_name domain);
           "llms_fulltxt" := if truthy i then VPath d (llms_fulltxt_name domain)
                             else VNone ]}
    ∧ fs s' = <[d := files]> (fs s)
    ∧ (truthy i = false → files = {[ llmstxt_name domain := index ]})
    ∧ (truthy i = true →
       ∃ full, subscript result "llms_fulltxt" = Return (VStr full)
               ∧ files = <[llms_fulltxt_name domain := full]>
                           {[ llmstxt_name domain := index ]}).
Proof.
  intros Hgen Hret Hfresh Hnetloc Hindex Hfull domain d. unfold process_job.
  task_step. task_step. rewrite Hgen. proj. task_step. task_step.
  rewrite Hret. proj. task_step. rewrite Hfresh. proj. task_step.
  rewrite Hnetloc. proj. task_step. fold d domain.
  unfold open_write at 1. rewrite lookup_insert_eq, Hindex. proj. task_step.
  destruct (truthy i) eqn:Hi.
  - destruct (Hfull eq_refl) as [full Hfulltext].
    unfold open_write at 1. rewrite lookup_insert_eq, Hfulltext. proj.
    task_step. task_step. task_done.
    eexists _, _, (<[llms_fulltxt_name domain := full]> {[ llmstxt_name domain := index ]}).
    split; [reflexivity|]. proj.
    rewrite lookup_delete_eq, !lookup_insert_eq.
    split; [done|]. split; [done|]. split; [done|]. split.
    { unfold files_record. cbn [include_full_text]. by rewrite Hi. }
    split; [by rewrite !insert_insert_eq, insert_empty|].
    split; [done|]. intros _. by exists full.
  - proj. task_step. task_step. task_done.
    eexists _, _, {[ llmstxt_name domain := index ]}.
    split; [reflexivity|]. proj.
    rewrite lookup_delete_eq, !lookup_insert_eq.
    split; [done|]. split; [done|]. split; [done|]. split.
    { unfold files_record. cbn [include_full_text]. by rewrite Hi. }
    split; [by rewrite !insert_insert_eq, insert_empty|].
    split; done.
Qed.

(** The end of a task that fails: the handler runs and the task returns. *)
Ltac fail_path :=
  proj; task_step; task_step; task_done; intros [= <-]; proj;
  eexists _, _; rewrite !lookup_insert_eq, lookup_delete_eq;
  split; [done|]; split; [done|]; split; [done|]; left; by eexists.

(** Every call of [process_job] that returns leaves a record: that of a
    failure, or that of a success, and then every statement of the [try]
    block has succeeded. *)
Lemma process_job_outcome job_id u m i o s s' :
  process_job urlparse_netloc job_id u m i o s = Some s' →
  ∃ a r, COMPLETED_JOBS s' !! job_id = Some a ∧ heap s' !! a = Some r
    ∧ ACTIVE_JOBS s' !! job_id = None
    ∧ ((∃ e, r = failed_record (Task u m i L73) e (clock s))
       ∨ (∃ result netloc index,
            r = completed_record (Task u m i L73) result (mkdtemp o)
                  (str_replace netloc "www." "") (clock s)
            ∧ generator s = true ∧ generate_llmstxt o = Return result
            ∧ fs s !! mkdtemp o = None ∧ urlparse_netloc u = Return netloc
            ∧ subscript result "llmstxt" = Return (VStr index)
            ∧ (truthy i = true →
               ∃ full, subscript result "llms_fulltxt" = Return (VStr full)))).
Proof.
  unfold process_job.
  task_step. task_step.
  destruct (generator s) eqn:Hgen; [|fail_path].
  proj. task_step. task_step.
  destruct (generate_llmstxt o) as [result|e] eqn:Hret; [|fail_path].
  proj. task_step.
  destruct (fs s !! mkdtemp o) eqn:Hfresh; [done|].
  proj. task_step.
  destruct (urlparse_netloc u) as [netloc|e] eqn:Hnetloc; [|fail_path].
  proj. task_step. unfold open_write at 1. rewrite lookup_insert_eq.
  destruct (subscript result "llmstxt") as [[| | |index| |]|e] eqn:Hindex;
    try fail_path.
  proj. task_step.
  destruct (truthy i) eqn:Hi.
  - unfold open_write at 1. rewrite lookup_insert_eq.
    destruct (subscript result "llms_fulltxt") as [[| | |full| |]|e] eqn:Hfulltext;
      try fail_path.
    proj. task_step. task_step. task_done. intros [= <-]. proj.
    eexists _, _. rewrite !lookup_insert_eq, lookup_delete_eq.
    split; [done|]. split; [done|]. split; [done|]. right.
    exists result, netloc, index. repeat split; try done. intros _. by exists full.
  - proj. task_step. task_step. task_done. intros [= <-]. proj.
    eexists _, _. rewrite !lookup_insert_eq, lookup_delete_eq.
    split; [done|]. split; [done|]. split; [done|]. right.
    exists result, netloc, index. repeat split; done.
Qed.

(** C3, amended: whatever exception is raised in the task, the handler
    records the job in the completed set with status [failed] and the text
    of the exception and removes it from the pending set, and leaves the
    file system as it is when the exception is raised; a call that does
    not end with status [completed] ends in this way.  When the generator
    is not initialized, or when the generator call raises, the file system
    is as it was before the task, and in the first case the recorded text
    contains "not initialized". *)
Theorem process_job_failure job_id u m i o s :
  (∀ s0 t e,
     threads s0 !! job_id = Some t → at_pc t = L123 e →
     ∃ s' a, run_to_end urlparse_netloc 3 job_id o s0 = Some s'
       ∧ COMPLETED_JOBS s' !! job_id = Some a
       ∧ heap s' !! a = Some (failed_record t e (clock s0))
       ∧ ACTIVE_JOBS s' !! job_id = None
       ∧ fs s' = fs s0)
  ∧ (∀ s' a r,
       process_job urlparse_netloc job_id u m i o s = Some s' →
       COMPLETED_JOBS s' !! job_id = Some a → heap s' !! a = Some r →
       r !! "status" ≠ Some (VStr "completed") →
       ACTIVE_JOBS s' !! job_id = None
       ∧ ∃ e, r = failed_record (Task u m i L73) e (clock s)
              ∧ r !! "status" = Some (VStr "failed")
              ∧ r !! "error" = Some (VStr e))
  ∧ (generator s = false →
     ∃ s' a e, process_job urlparse_netloc job_id u m i o s = Some s'
       ∧ COMPLETED_JOBS s' !! job_id = Some a
       ∧ heap s' !! a = Some (failed_record (Task u m i L73) e (clock s))
       ∧ contains e "not initialized"
       ∧ ACTIVE_JOBS s' !! job_id = None
       ∧ fs s' = fs s)
  ∧ (∀ e, generator s = true → generate_llmstxt o = Raise e →
     ∃ s' a, process_job urlparse_netloc job_id u m i o s = Some s'
       ∧ COMPLETED_JOBS s' !! job_id = Some a
       ∧ heap s' !! a = Some (failed_record (Task u m i L73) e (clock s))
       ∧ ACTIVE_JOBS s' !! job_id = None
       ∧ fs s' = fs s).
Proof.
  split; [|split; [|split]].
  - intros s0 t e Ht Hpc.
    destruct (handler_runs 0 job_id o s0 t e Ht Hpc) as (s' & a & ? & ? & ? & ? & ? & _).
    by exists s', a.
  - intros s' a r Hrun Ha Hr Hstatus.
    destruct (process_job_outcome _ _ _ _ _ _ _ Hrun)
      as (a' & r' & Ha' & Hr' & Hact & Hcase).
    assert (a' = a) as -> by congruence. assert (r' = r) as -> by congruence.
    split; [done|].
    destruct Hcase as [[e ->]|(result & netloc & index & -> & _)]; [by exists e|done].
  - intros Hgen. unfold process_job.
    task_step. task_step. rewrite Hgen. proj.
    match goal with
    | |- context [run_to_end _ _ _ _ ?s1] =>
        destruct (handler_runs 6 job_id o s1
                    (goto (L123 "Generator not initialized - check API keys")
                       (goto L80 (Task u m i L73)))
                    "Generator not initialized - check API keys")
          as (s' & a & Hrun & Hc & Hh & Ha & Hf & _);
        [proj; apply lookup_insert_eq|reflexivity|]
    end.
    exists s', a, "Generator not initialized - check API keys".
    split; [exact Hrun|]. split; [exact Hc|]. split; [exact Hh|].
    split; [apply contains_not_initialized|]. split; [exact Ha|exact Hf].
  - intros e Hgen Hraise. unfold process_job.
    task_step. task_step. rewrite Hgen. proj. task_step. task_step.
    rewrite Hraise. proj.
    match goal with
    | |- context [run_to_end _ _ _ _ ?s1] =>
        destruct (handler_runs 4 job_id o s1
                    (goto (L123 e) (goto L86 (goto L84 (goto L80 (Task u m i L73)))))
                    e)
          as (s' & a & Hrun & Hc & Hh & Ha & Hf & _);
        [proj; apply lookup_insert_eq|reflexivity|]
    end.
    exists s', a. split; [exact Hrun|]. split; [exact Hc|]. split; [exact Hh|].
    split; [exact Ha|exact Hf].
Qed.

(** C4, amended: a call of [process_job] ends with a record of status
    [completed] when the generator is ready and returns a result with an
    index text (and a full text if the full text is requested), the URL
    parses and [mkdtemp] makes a new directory.  For every call that ends
    with a record of status [completed], the base name is the [netloc] of
    the URL with every occurrence of ["www."] removed; the task has made a
    new directory [d] and nothing else has changed on disk; the index text
    of the generator's result is the content of [<base>-llms.txt] in [d];
    the full text is the content of [<base>-llms-full.txt] in [d] when the
    full text is requested, and [d] holds nothing else; when it is not
    requested [d] holds the index file only and [files.llms_fulltxt] is
    [None], while [files.llmstxt] is the path of the index file. *)
Theorem process_job_completed job_id u m i o s :
  (∀ result netloc index,
     generator s = true → generate_llmstxt o = Return result →
     fs s !! mkdtemp o = None → urlparse_netloc u = Return netloc →
     subscript result "llmstxt" = Return (VStr index) →
     (truthy i = true → ∃ full, subscript result "llms_fulltxt" = Return (VStr full)) →
     ∃ s' a r, process_job urlparse_netloc job_id u m i o s = Some s'
               ∧ COMPLETED_JOBS s' !! job_id = Some a ∧ heap s' !! a = Some r
               ∧ r !! "status" = Some (VStr "completed"))
  ∧ ∀ s' a r,
      process_job urlparse_netloc job_id u m i o s = Some s' →
      COMPLETED_JOBS s' !! job_id = Some a → heap s' !! a = Some r →
      r !! "status" = Some (VStr "completed") →
      ∃ result netloc index files,
        generate_llmstxt o = Return result
        ∧ urlparse_netloc u = Return netloc
        ∧ subscript result "llmstxt" = Return (VStr index)
        ∧ fs s !! mkdtemp o = None
        ∧ fs s' = <[mkdtemp o := files]> (fs s)
        ∧ r !! "result" = Some result
        ∧ r !! "temp_dir" = Some (VStr (mkdtemp o))
        ∧ r !! "files"
          = Some (VDict
                    {[ "llmstxt" := VPath (mkdtemp o)
                                      (llmstxt_name (str_replace netloc "www." ""));
                       "llms_fulltxt" :=
                         if truthy i
                         then VPath (mkdtemp o)
                                (llms_fulltxt_name (str_replace netloc "www." ""))
                         else VNone ]})
        ∧ (truthy i = false →
           files = {[ llmstxt_name (str_replace netloc "www." "") := index ]})
        ∧ (truthy i = true →
           ∃ full, subscript result "llms_fulltxt" = Return (VStr full)
                   ∧ files
                     = <[llms_fulltxt_name (str_replace netloc "www." "") := full]>
                         {[ llmstxt_name (str_replace netloc "www." "") := index ]}).
Proof.
  split.
  - intros result netloc index Hgen Hret Hfresh Hnetloc Hindex Hfull.
    destruct (process_job_succeeds job_id u m i o s result netloc index
                Hgen Hret Hfresh Hnetloc Hindex Hfull)
      as (s' & a & files & Hrun & Ha & _ & Hr & _).
    by exists s', a, (completed_record (Task u m i L73) result (mkdtemp o)
                        (str_replace netloc "www." "") (clock s)).
  - intros s' a r Hrun Ha Hr Hstatus.
    destruct (process_job_outcome _ _ _ _ _ _ _ Hrun)
      as (a' & r' & Ha' & Hr' & _ & Hcase).
    assert (a' = a) as -> by congruence. assert (r' = r) as -> by congruence.
    destruct Hcase as [[e ->]|(result & netloc & index & -> & Hgen & Hret & Hfresh
                               & Hnetloc & Hindex & Hfull)]; [done|].
    destruct (process_job_succeeds job_id u m i o s result netloc index
                Hgen Hret Hfresh Hnetloc Hindex Hfull)
      as (s'' & a'' & files & Hrun' & _ & _ & _ & Hfiles & Hfs & Hno & Hyes).
    assert (s'' = s') as -> by congruence.
    exists result, netloc, index, files.
    split; [done|]. split; [done|]. split; [done|]. split; [done|]. split; [done|].
    split; [done|]. split; [done|]. split; [by rewrite <-Hfiles|]. by split.
Qed.

(** A call of [process_job] returns, provided [mkdtemp] makes a new
    directory. *)
Lemma process_job_returns job_id u m i o s :
  fs s !! mkdtemp o = None →
  is_Some (process_job urlparse_netloc job_id u m i o s).
Proof.
  intros Hfresh. unfold process_job.
  destruct (run_to_end_total urlparse_netloc job_id o 11
              (set_task job_id (Task u m i L73) s) (Task u m i L73))
    as (s' & _ & _ & Hrun & _).
  - apply lookup_insert_eq.
  - simpl. lia.
  - by intros _.
  - by exists s'.
Qed.

End process_job_call.

(** ** Submissions *)

Section submissions.

Variable urlparse_netloc : value → outcome string.








End submissions.

(** * The scenarios *)

Lemma demo_init_reachable : reachable netloc_model demo_init.
Proof. apply (reachable_init _ true 1000 ∅). vm_compute. reflexivity. Qed.

Lemma demo_state_reachable n :
  is_Some (steps netloc_model demo_init (demo_trace n)) →
  reachable netloc_model (demo_state n).
Proof.
  intros [s Hs]. unfold demo_state. rewrite Hs. simpl.
  eapply reachable_steps; [apply demo_init_reachable|exact Hs].
Qed.

Lemma demo_submitted_reachable : reachable netloc_model demo_submitted.
Proof. apply demo_state_reachable. vm_compute. eauto. Qed.

Lemma demo_pending_reachable : reachable netloc_model demo_pending.
Proof. apply demo_state_reachable. vm_compute. eauto. Qed.

Lemma demo_moving_reachable : reachable netloc_model demo_moving.
Proof. apply demo_state_reachable. vm_compute. eauto. Qed.

Lemma demo_done_reachable : reachable netloc_model demo_done.
Proof. apply demo_state_reachable. vm_compute. eauto. Qed.


Lemma demo_late_fire : step netloc_model demo_late Fire = Some demo_swept.
Proof. vm_compute. reflexivity. Qed.

(** ** C1 *)

Lemma job_in_sets_witness :
  ∃ a r, ACTIVE_JOBS demo_moving !! "job-1" = Some a
         ∧ heap demo_moving !! a = Some r
         ∧ r !! "status" = Some (VStr "processing")
         ∧ (get_status "job-1" demo_moving).2 = Json 200 (VDict r).
Proof.
  refine (proj1 (job_in_sets netloc_model demo_moving "job-1" (goto L117 demo_task)
                   demo_moving_reachable _)).
  vm_compute. reflexivity.
Defined.

(** C1 as stated fails: when the task of the scenario has made the record
    and not yet executed line 118, the job is in both dictionaries, which
    the health query shows; and a job that has just been submitted is in
    neither. *)
Lemma move_not_atomic :
  reachable netloc_model demo_moving
  ∧ ¬ in_exactly_one demo_moving "job-1"
  ∧ ACTIVE_JOBS demo_moving !! "job-1" = Some 0%nat
  ∧ COMPLETED_JOBS demo_moving !! "job-1" = Some 1%nat
  ∧ health demo_moving
    = Json 200 (VDict {[ "status" := VStr "healthy"; "generator_ready" := VBool true;
                         "active_jobs" := VNum 1; "completed_jobs" := VNum 1 ]})
  ∧ reachable netloc_model demo_submitted
  ∧ ¬ in_exactly_one demo_submitted "job-1".
Proof.
  split; [apply demo_moving_reachable|].
  split; [intros [[_ H]|[H _]]; vm_compute in H; discriminate|].
  split; [vm_compute; reflexivity|]. split; [vm_compute; reflexivity|].
  split; [vm_compute; reflexivity|].
  split; [apply demo_submitted_reachable|].
  intros [[[a H] _]|[_ [a H]]]; vm_compute in H; discriminate.
Qed.

(** ** C2 *)

Lemma job_terminal_once_witness :
  ∃ s', run_to_end netloc_model 11 "job-1" demo_oracle demo_submitted = Some s'
        ∧ reachable netloc_model s' ∧ terminated s' "job-1".
Proof.
  apply (proj1 (job_terminal_once netloc_model demo_submitted demo_submitted_reachable)
           "job-1" demo_task demo_oracle).
  - vm_compute. reflexivity.
  - left. reflexivity.
  - intros _. vm_compute. reflexivity.
Defined.

(** ** C3 *)

Lemma process_job_failure_witness :
  ∃ s' a e,
    process_job netloc_model "job-1" (VStr "https://example.com") (VNum 20)
      (VBool true) demo_oracle demo_no_keys = Some s'
    ∧ COMPLETED_JOBS s' !! "job-1" = Some a
    ∧ heap s' !! a
      = Some (failed_record (Task (VStr "https://example.com") (VNum 20)
                               (VBool true) L73) e (clock demo_no_keys))
    ∧ contains e "not initialized"
    ∧ ACTIVE_JOBS s' !! "job-1" = None
    ∧ fs s' = fs demo_no_keys.
Proof.
  apply (proj1 (proj2 (proj2 (process_job_failure netloc_model "job-1"
                                (VStr "https://example.com") (VNum 20) (VBool true)
                                demo_oracle demo_no_keys)))).
  reflexivity.
Defined.

(** C3 as stated fails: the generator returns a result without a full
    text although the full text is requested; line 102 raises [KeyError]
    after the index file has been written and the other file opened; the
    job is recorded as failed, and both files are on the disk. *)
Lemma failure_leaves_files :
  process_job netloc_model "job-1" (VStr "https://example.com") (VNum 20)
    (VBool true) demo_index_only demo_init = Some demo_failed
  ∧ COMPLETED_JOBS demo_failed !! "job-1" = Some 1%nat
  ∧ heap demo_failed !! 1%nat
    = Some (failed_record (Task (VStr "https://example.com") (VNum 20) (VBool true) L73)
              "'llms_fulltxt'" 1000)
  ∧ ACTIVE_JOBS demo_failed !! "job-1" = None
  ∧ fs demo_init = ∅
  ∧ fs demo_failed
    = {[ "/tmp/tmpa" := {[ "example.com-llms.txt" := "# example.com llms.txt";
                           "example.com-llms-full.txt" := "" ]} ]}.
Proof.
  split; [vm_compute; reflexivity|]. split; [vm_compute; reflexivity|].
  split; [vm_compute; reflexivity|]. split; [vm_compute; reflexivity|].
  split; vm_compute; reflexivity.
Qed.

(** ** C4 *)

Lemma process_job_completed_witness :
  ∃ result netloc index files,
    generate_llmstxt demo_oracle = Return result
    ∧ netloc_model (VStr "https://example.com") = Return netloc
    ∧ subscript result "llmstxt" = Return (VStr index)
    ∧ fs demo_init !! mkdtemp demo_oracle = None
    ∧ fs demo_completed = <[mkdtemp demo_oracle := files]> (fs demo_init)
    ∧ completed_record demo_task demo_result "/tmp/tmpa" "example.com" 1000 !! "result"
      = Some result
    ∧ completed_record demo_task demo_result "/tmp/tmpa" "example.com" 1000 !! "temp_dir"
      = Some (VStr (mkdtemp demo_oracle))
    ∧ completed_record demo_task demo_result "/tmp/tmpa" "example.com" 1000 !! "files"
      = Some (VDict
                {[ "llmstxt" := VPath (mkdtemp demo_oracle)
                                  (llmstxt_name (str_replace netloc "www." ""));
                   "llms_fulltxt" :=
                     if truthy (VBool false)
                     then VPath (mkdtemp demo_oracle)
                            (llms_fulltxt_name (str_replace netloc "www." ""))
                     else VNone ]})
    ∧ (truthy (VBool false) = false →
       files = {[ llmstxt_name (str_replace netloc "www." "") := index ]})
    ∧ (truthy (VBool false) = true →
       ∃ full, subscript result "llms_fulltxt" = Return (VStr full)
               ∧ files = <[llms_fulltxt_name (str_replace netloc "www." "") := full]>
                           {[ llmstxt_name (str_replace netloc "www." "") := index ]}).
Proof.
  apply (proj2 (process_job_completed netloc_model "job-1"
                  (VStr "https://example.com") (VNum 10) (VBool false)
                  demo_oracle demo_init) demo_completed 1%nat
           (completed_record demo_task demo_result "/tmp/tmpa" "example.com" 1000)).
  - vm_compute. reflexivity.
  - vm_compute. reflexivity.
  - vm_compute. reflexivity.
  - vm_compute. reflexivity.
Defined.

(** The concrete scenario of the specification: the file is
    [example.com-llms.txt] and holds the index text. *)
Lemma demo_completed_files :
  fs demo_completed
  = {[ "/tmp/tmpa" := {[ "example.com-llms.txt" := "# example.com llms.txt" ]} ]}
  ∧ calls demo_completed = [(VStr "https://example.com", VNum 10, VBool false)].
Proof. split; vm_compute; reflexivity. Qed.

(** A host whose only ["www."] is the leading one loses it. *)
Lemma str_replace_leading_www :
  str_replace (netloc_of "https://www.example.com/docs?page=1") "www." ""
  = "example.com".
Proof. vm_compute. reflexivity. Qed.

(** C4 as stated fails: for a host with ["www."] in the middle the base
    name is not the host with a leading ["www."] stripped. *)
Lemma base_name_not_leading_strip :
  process_job netloc_model "job-1" (VStr demo_subdomain_url) (VNum 20)
    (VBool false) demo_oracle demo_init = Some demo_subdomain
  ∧ fs demo_subdomain
    = {[ "/tmp/tmpa" := {[ "docs.example.com-llms.txt"
                           := "# example.com llms.txt" ]} ]}
  ∧ netloc_of demo_subdomain_url = "docs.www.example.com"
  ∧ llmstxt_name (spec_base_name (netloc_of demo_subdomain_url))
    = "docs.www.example.com-llms.txt"
  ∧ str_replace (netloc_of demo_subdomain_url) "www." ""
    ≠ spec_base_name (netloc_of demo_subdomain_url).
Proof.
  split; [vm_compute; reflexivity|]. split; [vm_compute; reflexivity|].
  split; [vm_compute; reflexivity|]. split; [vm_compute; reflexivity|].
  vm_compute. discriminate.
Qed.

(** ** C5 *)

Lemma download_file_cases_witness :
  ∃ files result,
    completed_record demo_task demo_result "/tmp/tmpa" "example.com" 1000 !! "files"
    = Some (VDict files)
    ∧ completed_record demo_task demo_result "/tmp/tmpa" "example.com" 1000 !! "result"
      = Some result
    ∧ ((("llms_fulltxt" ≠ "llmstxt" ∧ "llms_fulltxt" ≠ "llms_fulltxt")
        ∨ truthy (get_or_None files "llms_fulltxt") = false) →
       download_file "job-1" "llms_fulltxt" demo_done
       = Json 404 (VDict {[ "error" := VStr "File not found" ]}))
    ∧ ("llms_fulltxt" = "llmstxt" ∨ "llms_fulltxt" = "llms_fulltxt" →
       truthy (get_or_None files "llms_fulltxt") = true →
       ∃ dir name text,
         files !! "llms_fulltxt" = Some (VPath dir name)
         ∧ fs demo_done !! dir ≫= (λ fl, fl !! name) = Some text
         ∧ subscript result "llms_fulltxt" = Return (VStr text)
         ∧ download_file "job-1" "llms_fulltxt" demo_done = Attachment text).
Proof.
  apply (proj2 (download_file_cases netloc_model demo_done "job-1" "llms_fulltxt"
                  demo_done_reachable) 1%nat
           (completed_record demo_task demo_result "/tmp/tmpa" "example.com" 1000)).
  - vm_compute. reflexivity.
  - vm_compute. reflexivity.
  - vm_compute. reflexivity.
Defined.

(** C5 as stated fails: the record of the pending job of the scenario
    exists and its status is not [completed], and the download answers
    404, not 400. *)
Lemma download_pending_not_found :
  reachable netloc_model demo_pending
  ∧ ACTIVE_JOBS demo_pending !! "job-1" = Some 0%nat
  ∧ heap demo_pending !! 0%nat
    = Some {[ "url" := VStr "https://example.com"; "status" := VStr "processing";
              "progress" := VStr "Mapping website..."; "start_time" := VNum 1000 ]}
  ∧ download_file "job-1" "llmstxt" demo_pending
    = Json 404 (VDict {[ "error" := VStr "Job not found" ]}).
Proof.
  split; [apply demo_pending_reachable|]. split; [vm_compute; reflexivity|].
  split; vm_compute; reflexivity.
Qed.

(** ** C6 *)

Lemma get_status_response_witness :
  ∃ body, (get_status "job-1" demo_done).2 = Json 200 (VDict body)
          ∧ body !! "files" = None ∧ body !! "temp_dir" = None.
Proof.
  apply (proj1 (get_status_response netloc_model demo_done "job-1"
                  demo_done_reachable)).
  vm_compute. eauto.
Defined.

(** ** C7 *)



(** What a submission without the [url] key is answered: the code is 500,
    although the exception raised is [BadRequest]. *)
Lemma generate_missing_url :
  generate (Some {[ "max_urls" := VNum 10 ]}) "job-1" demo_init
  = (demo_init,
     Json 500 (VDict {[ "error" := VStr "400 Bad Request: URL is required" ]})).
Proof. vm_compute. reflexivity. Qed.

(** ** C8 *)


(** The sweep of the scenario: the record and the directory of the job
    are gone, and the status query does not know the job. *)
Lemma demo_swept_state :
  COMPLETED_JOBS demo_late !! "job-1" = Some 1%nat
  ∧ fs demo_late !! "/tmp/tmpa"
    = Some {[ "example.com-llms.txt" := "# example.com llms.txt" ]}
  ∧ COMPLETED_JOBS demo_swept = ∅ ∧ fs demo_swept = ∅
  ∧ (get_status "job-1" demo_swept).2
    = Json 404 (VDict {[ "error" := VStr "Job not found" ]}).
Proof.
  split; [vm_compute; reflexivity|]. split; [vm_compute; reflexivity|].
  split; [vm_compute; reflexivity|]. split; vm_compute; reflexivity.
Qed.

(** ** C9 *)

Lemma get_status_keeps_record_witness :
  COMPLETED_JOBS (status_queries ["job-1"; "job-1"; "job-2"] demo_done) !! "job-1"
  = Some 1%nat
  ∧ heap (status_queries ["job-1"; "job-1"; "job-2"] demo_done) !! 1%nat
    = Some (completed_record demo_task demo_result "/tmp/tmpa" "example.com" 1000)
  ∧ (∀ file_type,
       download_file "job-1" file_type
         (status_queries ["job-1"; "job-1"; "job-2"] demo_done)
       = download_file "job-1" file_type demo_done)
  ∧ (completed_record demo_task demo_result "/tmp/tmpa" "example.com" 1000 !! "status"
     = Some (VStr "completed") →
     is_Some (completed_record demo_task demo_result "/tmp/tmpa" "example.com" 1000
              !! "files")
     ∧ is_Some (completed_record demo_task demo_result "/tmp/tmpa" "example.com" 1000
                !! "temp_dir")
     ∧ ∃ text, download_file "job-1" "llmstxt"
                 (status_queries ["job-1"; "job-1"; "job-2"] demo_done)
               = Attachment text).
Proof.
  apply (get_status_keeps_record netloc_model demo_done ["job-1"; "job-1"; "job-2"]
           "job-1" 1%nat
           (completed_record demo_task demo_result "/tmp/tmpa" "example.com" 1000)
           demo_done_reachable).
  - vm_compute. reflexivity.
  - vm_compute. reflexivity.
Defined.

(** ** C10 *)


(** The defaults: a body with the [url] key only. *)
Lemma generate_defaults :
  threads (generate (Some {[ "url" := VStr "https://example.com" ]}) "job-1"
             demo_init).1 !! "job-1"
  = Some (Task (VStr "https://example.com") (VNum 20) (VBool true) L73).
Proof. vm_compute. reflexivity. Qed.
